(** * GriefSupportBot: a shallow embedding of [chatbot.py]

    The responder of the repository classifies a message with regular
    expressions, resolves the hit categories by a priority list and
    selects a reply while tracking which replies of a category were
    already used.  This file embeds that code and proves the properties
    its specification states about it.

    Conventions of the embedding.
    - A Python [str] that is inspected (the message) is a list of code
      points, [list N].
    - A Python [str] that is only compared, joined and returned (category
      names, replies) is a Rocq [string] holding the UTF-8 encoding of
      the source literal.
    - Dictionaries are [gmap]s, sets are [gset]s.
    - Methods that mutate the object or draw a random number live in a
      state-and-exception monad over the object and the generator. *)

From Stdlib Require Import NArith ZArith.
From stdpp Require Import base option list gmap sets strings sorting.

Open Scope N_scope.

(** ** Characters *)

(** Code points of an ASCII literal. *)
Definition codes (s : string) : list N :=
  (λ b, N.of_nat (Byte.to_nat b)) <$> String.list_byte_of_string s.

Definition ascii_isupper (c : N) : bool := (65 <=? c) && (c <=? 90).
Definition ascii_islower (c : N) : bool := (97 <=? c) && (c <=? 122).
Definition ascii_isdigit (c : N) : bool := (48 <=? c) && (c <=? 57).
Definition ascii_isalnum (c : N) : bool :=
  ascii_isupper c || ascii_islower c || ascii_isdigit c.
Definition ascii_tolower (c : N) : N :=
  if ascii_isupper c then c + 32 else c.

(** [str.isspace] of one character, which is also the class [\s] of a
    [str] pattern: the ASCII table below 128, the Unicode white space
    characters above. *)
Definition Py_UNICODE_ISSPACE (c : N) : bool :=
  if c <? 128 then
    (9 <=? c) && (c <=? 13) || (28 <=? c) && (c <=? 31) || (c =? 32)
  else
    (c =? 0x85) || (c =? 0xA0) || (c =? 0x1680)
    || (0x2000 <=? c) && (c <=? 0x200A)
    || (c =? 0x2028) || (c =? 0x2029) || (c =? 0x202F)
    || (c =? 0x205F) || (c =? 0x3000).

(** [str.strip()] *)
Fixpoint lstrip (s : list N) : list N :=
  match s with
  | [] => []
  | c :: s' => if Py_UNICODE_ISSPACE c then lstrip s' else s
  end.
Definition rstrip (s : list N) : list N := reverse (lstrip (reverse s)).
Definition strip (s : list N) : list N := rstrip (lstrip s).

Close Scope N_scope.

(** ** Regular expressions

    The fragment of [re] syntax the source patterns are written in. *)

Inductive atom :=
| Char (c : N)                  (* a literal character *)
| Whitespace                    (* \s *)
| Either (a1 a2 : atom).        (* [a1a2] *)

Inductive regex :=
| Empty                         (* the empty pattern *)
| Atom (a : atom)
| Repeat1 (a : atom)            (* a+ *)
| Cat (r1 r2 : regex)           (* r1r2 *)
| Alt (r1 r2 : regex)           (* r1|r2 *)
| Opt (r : regex)               (* r? *)
| WordBoundary.                 (* \b *)

(** A literal run of characters. *)
Definition lit (s : string) : regex :=
  foldr (λ c r, Cat (Atom (Char c)) r) Empty (codes s).

(** [r1r2...rn] *)
Definition re_seq (rs : list regex) : regex := foldr Cat Empty rs.

(** [r1|r2|...|rn] *)
Definition re_alt (rs : list regex) : regex :=
  match rs with
  | [] => Empty
  | r :: rs' => foldl Alt r rs'
  end.

(** [\s+] *)
Definition spaces : regex := Repeat1 Whitespace.

(** A compiled pattern: [re.compile(p, flags)]. *)
Record Pattern := { pattern : regex; IGNORECASE : bool }.

(** ** Data model *)

(** The values a caller can hand over as [message]. *)
#[warnings="-register-all"]
Inductive pyval :=
| PyNone
| PyBool (b : bool)
| PyInt (z : Z)
| PyStr (s : list N)
| PyList (items : list pyval).

(** Truth value of a Python object. *)
Definition truthy (v : pyval) : bool :=
  match v with
  | PyNone => false
  | PyBool b => b
  | PyInt z => negb (z =? 0)%Z
  | PyStr s => negb (bool_decide (s = []))
  | PyList items => match items with [] => false | _ => true end
  end.

(** [a or b] *)
Definition py_or (a b : pyval) : pyval := if truthy a then a else b.

Inductive exn :=
| AttributeError
| KeyError (key : string)
| IndexError.

Inductive outcome (A : Type) :=
| Return (a : A)
| Raise (e : exn).
Arguments Return {A} a.
Arguments Raise {A} e.

Record BotConfig := {
  deterministic : bool;
  locale_hint : string }.

(** [BotConfig()] *)
Definition BotConfig_default : BotConfig :=
  {| deterministic := false; locale_hint := "US/CA" |}.

(** The attributes of a [GriefSupportBot] object. *)
Record GriefSupportBot := {
  cfg : BotConfig;
  responses : gmap string (list string);
  followups : gmap string (list string);
  patterns : gmap string Pattern;
  crisis_pattern : Pattern;
  priorities : list string;
  _used_indexes : gmap string (gset nat) }.

(** The object with its usage state replaced: the only attribute a
    method writes after construction. *)
Definition set_used_indexes (b : GriefSupportBot)
    (used : gmap string (gset nat)) : GriefSupportBot :=
  {| cfg := cfg b;
     responses := responses b;
     followups := followups b;
     patterns := patterns b;
     crisis_pattern := crisis_pattern b;
     priorities := priorities b;
     _used_indexes := used |}.

(** The dictionary [_pack] builds. *)
Record Response := {
  text : string;
  category : string;
  matched_terms : string }.

(** ** The tables of [__init__] *)

(** [self.responses] as [__init__] builds it. *)
Definition initial_responses : gmap string (list string) :=
  list_to_map [
    ("greeting",
      ["Hello—I’m here with you. How are you feeling right now?";
       "Welcome. This is a safe space to share what’s on your heart. How are you doing today?";
       "Hi. I’m here to listen. What feels heaviest at the moment?"]);
    ("feeling_bad",
      ["I’m hearing a lot of pain. Grief can feel like it takes over everything. What’s been most intense today?";
       "That sounds really hard. Your feelings make sense after a loss. Do you want to say more about what’s coming up?";
       "It’s okay to not be okay. If you can, tell me what’s underneath the sadness right now."]);
    ("feeling_better",
      ["I’m glad there’s a bit of ease. Grief comes in waves; it’s okay to let this calmer moment be real.";
       "Good to hear. Relief and sadness can coexist—both are valid. What helped a little today?";
       "Noticing a better moment matters. What seems to support you when it shows up?"]);
    ("memories",
      ["Thank you for sharing that. What’s a memory that feels especially alive right now?";
       "Holding onto their stories can be grounding. What was one of their quirks you loved?";
       "I’m honored you shared that. What qualities of theirs do you carry with you?"]);
    ("sleep_issues",
      ["Sleep can get disrupted by grief. Would a simple wind-down—dim lights, light reading, slow breaths—be worth trying tonight?";
       "Not sleeping makes everything harder. Some people jot down looping thoughts before bed—could that help you?";
       "If this keeps up, talking with a clinician might help. For now, even a brief rest routine can be gentler on your system."]);
    ("anniversary",
      ["Dates can reopen the ache. Would a small ritual—lighting a candle, visiting a place, sharing a story—feel supportive?";
       "Milestones are tender. Creating a new tradition to honor them can help hold the day.";
       "It’s natural for emotions to rise around anniversaries. Is there someone you’d want beside you that day?"]);
    ("guilt",
      ["Guilt shows up for many people after a loss. Relationships are imperfect; love isn’t measured by flawless choices.";
       "You sound very hard on yourself. If a friend said this to you, what compassion would you offer them?";
       "‘If only’ thoughts are common and painful. We can explore them gently if you’d like."]);
    ("anger",
      ["Anger is a valid part of grief. It can point to what mattered deeply. How does it show up in your body?";
       "Your anger makes sense. Is there a safe way to let it move—writing, movement, or hitting a pillow?";
       "Many feel uneasy with anger, but it’s normal after loss. We can sit with it here."]);
    ("self_care",
      ["Small, doable care counts. A glass of water, a short walk, or stepping outside can be enough for now.";
       "What’s one tiny act of care you could manage in the next hour?";
       "Self-care in grief can be permission to feel, rest, and do less. What might that look like today?"]);
    ("support",
      ["Having company helps. Who in your world can simply listen without fixing?";
       "It’s okay to ask for specific help. What would be most useful—meals, child care, a check-in call?";
       "Peer groups can help you feel less alone. Would you like ideas on how to find one?"]);
    ("professional_help",
      ["A grief-informed therapist can offer steadiness and tools. Want a few ways to search?";
       "Professional support can widen your coping options—telehealth is common if that’s easier.";
       "If you’re open to it, we can outline what a first session might look like."]);
    ("default",
      ["Thank you for sharing. What feels most challenging right now?";
       "I’m here. Would you like to tell me a bit more about what you’re experiencing?";
       "Grief is complex. Where does it tend to hit the hardest for you?"]);
    ("crisis",
      ["I’m really glad you told me. You deserve immediate support. If you’re in danger or thinking of harming yourself, please call local emergency services now. If you’re in the U.S. or Canada, you can dial 988 for the Suicide & Crisis Lifeline. If possible, reach out to someone you trust to stay with you. I’ll stay with you here, too. Can you tell me where you are and if you’re safe right now?"])
  ].

(** [self.followups] as [__init__] builds it. *)
Definition initial_followups : gmap string (list string) :=
  list_to_map [
    ("feeling_bad",
      ["When did you first notice today’s dip?";
       "Where do you feel it in your body?"]);
    ("memories",
      ["Would you like to share a photo or another story sometime?";
       "How do you like to honor them day-to-day?"]);
    ("guilt",
      ["What part of this guilt feels the loudest?";
       "If you rewind that moment, what need were you trying to meet?"]);
    ("anger",
      ["Is there a safe outlet that has helped before?";
       "What does the anger want you to protect?"]);
    ("self_care",
      ["What’s one tiny step you could take in the next ten minutes?";
       "Who could text you a check-in later today?"])
  ].


(** [c(p)]: compile with [re.IGNORECASE]. *)
Definition c (p : regex) : Pattern := {| pattern := p; IGNORECASE := true |}.

Definition initial_patterns : gmap string Pattern :=
  list_to_map [
    (* \b(hello|hi|hey|greetings)\b *)
    ("greeting",
      c (re_seq [WordBoundary;
              re_alt [lit "hello"; lit "hi"; lit "hey"; lit "greetings"];
              WordBoundary]));
    (* \b(sad|depressed|overwhelmed|exhausted|tired|down|lonely|alone|lost
          |cry(?:ing)?|tears|difficult|hard)\b *)
    ("feeling_bad",
      c (re_seq [WordBoundary;
              re_alt [lit "sad"; lit "depressed"; lit "overwhelmed";
                    lit "exhausted"; lit "tired"; lit "down"; lit "lonely";
                    lit "alone"; lit "lost";
                    re_seq [lit "cry"; Opt (lit "ing")];
                    lit "tears"; lit "difficult"; lit "hard"];
              WordBoundary]));
    (* \b(better|good|okay|ok|fine|alright|improving|hopeful|positive)\b *)
    ("feeling_better",
      c (re_seq [WordBoundary;
              re_alt [lit "better"; lit "good"; lit "okay"; lit "ok";
                    lit "fine"; lit "alright"; lit "improving";
                    lit "hopeful"; lit "positive"];
              WordBoundary]));
    (* (?:\bmemory\b|\bmemories\b|\bremember(?:ed)?\b|\bmiss(?:ing)?\b
          |loved\s+one) *)
    ("memories",
      c (re_alt [re_seq [WordBoundary; lit "memory"; WordBoundary];
               re_seq [WordBoundary; lit "memories"; WordBoundary];
               re_seq [WordBoundary; lit "remember"; Opt (lit "ed");
                    WordBoundary];
               re_seq [WordBoundary; lit "miss"; Opt (lit "ing"); WordBoundary];
               re_seq [lit "loved"; spaces; lit "one"]]));
    (* \b(sleep|insomnia|nightmares?|dreams?|awake|bed)\b *)
    ("sleep_issues",
      c (re_seq [WordBoundary;
              re_alt [lit "sleep"; lit "insomnia";
                    re_seq [lit "nightmare"; Opt (lit "s")];
                    re_seq [lit "dream"; Opt (lit "s")];
                    lit "awake"; lit "bed"];
              WordBoundary]));
    (* \b(anniversary|birthday|holiday|christmas|thanksgiving|special\s+day
          |year\s+since|month\s+since)\b *)
    ("anniversary",
      c (re_seq [WordBoundary;
              re_alt [lit "anniversary"; lit "birthday"; lit "holiday";
                    lit "christmas"; lit "thanksgiving";
                    re_seq [lit "special"; spaces; lit "day"];
                    re_seq [lit "year"; spaces; lit "since"];
                    re_seq [lit "month"; spaces; lit "since"]];
              WordBoundary]));
    (* (?:\bguilt(?:y)?\b|\bblame(?:d)?\b|\bfault\b|\bregret\b
          |should(?:\s+have)?|could(?:\s+have)?|would(?:\s+have)?
          |\bif only\b|\bsorry\b) *)
    ("guilt",
      c (re_alt [re_seq [WordBoundary; lit "guilt"; Opt (lit "y"); WordBoundary];
               re_seq [WordBoundary; lit "blame"; Opt (lit "d"); WordBoundary];
               re_seq [WordBoundary; lit "fault"; WordBoundary];
               re_seq [WordBoundary; lit "regret"; WordBoundary];
               re_seq [lit "should"; Opt (re_seq [spaces; lit "have"])];
               re_seq [lit "could"; Opt (re_seq [spaces; lit "have"])];
               re_seq [lit "would"; Opt (re_seq [spaces; lit "have"])];
               re_seq [WordBoundary; lit "if only"; WordBoundary];
               re_seq [WordBoundary; lit "sorry"; WordBoundary]]));
    (* \b(angry|anger|mad|unfair|cruel|hate|resent(?:ment)?)\b *)
    ("anger",
      c (re_seq [WordBoundary;
              re_alt [lit "angry"; lit "anger"; lit "mad"; lit "unfair";
                    lit "cruel"; lit "hate";
                    re_seq [lit "resent"; Opt (lit "ment")]];
              WordBoundary]));
    (* (?:self[-\s]?care|take\s+care|help\s+myself
          |\b(shower|eat|eating|food|exercise|walk)\b) *)
    ("self_care",
      c (re_alt [re_seq [lit "self"; Opt (Atom (Either (Char 45) Whitespace));
                    lit "care"];
               re_seq [lit "take"; spaces; lit "care"];
               re_seq [lit "help"; spaces; lit "myself"];
               re_seq [WordBoundary;
                    re_alt [lit "shower"; lit "eat"; lit "eating"; lit "food";
                          lit "exercise"; lit "walk"];
                    WordBoundary]]));
    (* \b(support|friend[s]?|family|help|talk(?:ing)?|listen(?:ing)?)\b *)
    ("support",
      c (re_seq [WordBoundary;
              re_alt [lit "support";
                    re_seq [lit "friend"; Opt (Atom (Char 115))];
                    lit "family"; lit "help";
                    re_seq [lit "talk"; Opt (lit "ing")];
                    re_seq [lit "listen"; Opt (lit "ing")]];
              WordBoundary]));
    (* \b(therapy|therapist|counsel(?:l)?ing|counsel(?:l)?or|professional
          |doctor|psychologist|psychiatrist)\b *)
    ("professional_help",
      c (re_seq [WordBoundary;
              re_alt [lit "therapy"; lit "therapist";
                    re_seq [lit "counsel"; Opt (lit "l"); lit "ing"];
                    re_seq [lit "counsel"; Opt (lit "l"); lit "or"];
                    lit "professional"; lit "doctor"; lit "psychologist";
                    lit "psychiatrist"];
              WordBoundary]))
  ].

(** (?:suicid(?:e|al)|kill myself|end my life|can'?t go on
       |don'?t want to live|self[-\s]?harm|hurt myself|take my life) *)
Definition initial_crisis_pattern : Pattern :=
  c (re_alt [re_seq [lit "suicid"; re_alt [lit "e"; lit "al"]];
           lit "kill myself";
           lit "end my life";
           re_seq [lit "can"; Opt (lit "'"); lit "t go on"];
           re_seq [lit "don"; Opt (lit "'"); lit "t want to live"];
           re_seq [lit "self"; Opt (Atom (Either (Char 45) Whitespace));
                lit "harm"];
           lit "hurt myself";
           lit "take my life"]).

(** Category priorities, higher first. *)
Definition initial_priorities : list string :=
  ["crisis"; "anniversary"; "sleep_issues"; "feeling_bad"; "guilt"; "anger";
   "memories"; "self_care"; "support"; "professional_help"; "feeling_better";
   "greeting"; "default"].

(** The object [__init__] leaves behind for a configuration. *)
Definition new_bot (config : BotConfig) : GriefSupportBot :=
  {| cfg := config;
     responses := initial_responses;
     followups := initial_followups;
     patterns := initial_patterns;
     crisis_pattern := initial_crisis_pattern;
     priorities := initial_priorities;
     _used_indexes := ∅ |}.

(** The pattern of [_explicit_help_request]:
    \b(suggest|recommendation|advice|tip|help|idea
       |what\s+(?:can|should)\s+i\s+do)\b *)
Definition help_request_re : regex :=
  re_seq [WordBoundary;
       re_alt [lit "suggest"; lit "recommendation"; lit "advice"; lit "tip";
             lit "help"; lit "idea";
             re_seq [lit "what"; spaces; re_alt [lit "can"; lit "should"];
                  spaces; lit "i"; spaces; lit "do"]];
       WordBoundary].

(** The four patterns of [_get_self_care_suggestion]:
    \b(tired|sleep|eat|food|body|physical|exercise|walk|shower)\b
    \b(people|talk|friend|family|social|alone|lonely|connection)\b
    \b(meaning|purpose|spiritual|faith|belief|meditation|nature|soul)\b
    \b(tasks|work|chores|overwhelmed|organize|decision|decide)\b *)
Definition physical_re : regex :=
  re_seq [WordBoundary;
       re_alt [lit "tired"; lit "sleep"; lit "eat"; lit "food"; lit "body";
             lit "physical"; lit "exercise"; lit "walk"; lit "shower"];
       WordBoundary].
Definition social_re : regex :=
  re_seq [WordBoundary;
       re_alt [lit "people"; lit "talk"; lit "friend"; lit "family";
             lit "social"; lit "alone"; lit "lonely"; lit "connection"];
       WordBoundary].
Definition spiritual_re : regex :=
  re_seq [WordBoundary;
       re_alt [lit "meaning"; lit "purpose"; lit "spiritual"; lit "faith";
             lit "belief"; lit "meditation"; lit "nature"; lit "soul"];
       WordBoundary].
Definition practical_re : regex :=
  re_seq [WordBoundary;
       re_alt [lit "tasks"; lit "work"; lit "chores"; lit "overwhelmed";
             lit "organize"; lit "decision"; lit "decide"];
       WordBoundary].

(** The dictionary [_self_care_recs] returns. *)
Definition self_care_recs_table : gmap string (list string) :=
  list_to_map [
    ("physical",
      ["Try a two-minute body scan and slow breathing; even brief regulation helps your nervous system.";
       "A short walk or gentle stretch can release some of the tension grief holds.";
       "Hydrate and eat something simple; basics matter when energy is low.";
       "If you can, set a small wind-down routine tonight (lights down, no phone, one calming page)."]);
    ("emotional",
      ["Let feelings move without judging them—naming them softly can reduce their intensity.";
       "A few lines of journaling about ‘what hurts most’ can bring relief.";
       "It’s okay to feel moments of ease; they don’t erase your love."]);
    ("social",
      ["Text one trusted person: ‘Could you check in on me later? I’m having a rough day.’";
       "Ask for one concrete thing (a call, a walk, a meal) instead of ‘anything.’"]);
    ("spiritual",
      ["If it helps, light a candle or sit in nature for five minutes and breathe with what’s here.";
       "A brief mindfulness practice—counting five things you can see/hear/feel—can ground you."]);
    ("practical",
      ["Break today into the next tiny step; set a 10-minute timer and stop when it dings.";
       "Defer big decisions; grief narrows focus—give yourself time."])
  ].


(** ** The callers in [app.py]

    [api_chat] and [handle_user_message] hand the message of a request
    to the one module-level bot.  A request body or an event payload is
    a JSON value (numbers are the integers here); what the framework
    does around the handlers (routing, the login decorator, turning an
    exception into an error response) is left outside. *)

#[warnings="-register-all"]
Inductive json :=
| JNull
| JBool (b : bool)
| JInt (z : Z)
| JStr (s : list N)
| JArr (items : list json)
| JObj (fields : list (string * json)).

Definition json_truthy (v : json) : bool :=
  match v with
  | JNull => false
  | JBool b => b
  | JInt z => negb (z =? 0)%Z
  | JStr s => negb (bool_decide (s = []))
  | JArr items => match items with [] => false | _ => true end
  | JObj fields => match fields with [] => false | _ => true end
  end.

(** [a or b] *)
Definition json_or (a b : json) : json := if json_truthy a then a else b.

(** The value of a key in the items of a dictionary. *)
Definition fields_lookup (fields : list (string * json)) (key : string)
    : option json :=
  snd <$> List.find (λ kv, bool_decide (kv.1 = key)) fields.

(** What [jsonify] is given by [api_chat]. *)
Inductive api_body :=
| JsonError (error : string)
| JsonAnswer (resp : Response).

(** An event handed to [emit]. *)
Record Emitted := {
  event : string;
  emitted_user : string;
  emitted_message : string;
  emitted_category : string }.

(** [grief_bot = GriefSupportBot(BotConfig(deterministic=False))] *)
Definition grief_bot_config : BotConfig :=
  {| deterministic := false; locale_hint := "US/CA" |}.

(** ** A runtime for evaluation

    Values for the parameters of the embedding that suffice to run it
    on ASCII messages: nothing above ASCII is alphanumeric or has
    another case, and the generator counts its draws. *)

Definition plain_isalnum : N → bool := λ _, false.
Definition plain_tolower : N → N := λ c, c.
Definition plain_lower : list N → list N := λ s, s.
Definition counting_randbelow (n : nat) (draws : nat) : nat * nat :=
  (draws, S draws).

(** The configuration of the manual test of the source. *)
Definition test_config : BotConfig :=
  {| deterministic := true; locale_hint := "US/CA" |}.

Section Runtime.

(** The parts of the Unicode character database above ASCII that the
    matcher consults, and the generator behind [random]. *)
Variable unicode_isalnum : N → bool.
Variable unicode_tolower : N → N.
Variable unicode_lower : list N → list N.
Variable RandomState : Type.
Variable random_seed : Z → RandomState.
Variable randbelow : nat → RandomState → nat * RandomState.

(** [\w] of a [str] pattern: alphanumeric or underscore. *)
Definition is_word (c : N) : bool :=
  if (c <? 128)%N then ascii_isalnum c || (c =? 95)%N
  else unicode_isalnum c.

(** Case folding of a text character under [re.IGNORECASE]. *)
Definition sre_lower (c : N) : N :=
  if (c <? 128)%N then ascii_tolower c else unicode_tolower c.

(** Lower-case letters that share their upper case with an ASCII
    letter: dotless i and long s. *)
Definition ignorecase_fixes (c : N) : list N :=
  if (c =? 105)%N then [0x131%N]
  else if (c =? 115)%N then [0x17F%N] else [].

(** [str.lower()]: ASCII strings take the byte-wise path. *)
Definition str_lower (s : list N) : list N :=
  if forallb (λ c, (c <? 128)%N) s then ascii_tolower <$> s
  else unicode_lower s.

Section Matcher.
Variable ignorecase : bool.

Definition char_matches (c x : N) : bool :=
  if ignorecase && (ascii_isupper c || ascii_islower c) then
    bool_decide (sre_lower x ∈ ascii_tolower c :: ignorecase_fixes (ascii_tolower c))
  else (x =? c)%N.

Fixpoint atom_matches (a : atom) (x : N) : bool :=
  match a with
  | Char c => char_matches c x
  | Whitespace => Py_UNICODE_ISSPACE x
  | Either a1 a2 => atom_matches a1 x || atom_matches a2 x
  end.

(** One or more characters of a class, then the continuation. *)
Fixpoint match_repeat1 (a : atom) (s : list N)
    (k : option N → list N → bool) : bool :=
  match s with
  | [] => false
  | x :: s' =>
      atom_matches a x && (match_repeat1 a s' k || k (Some x) s')
  end.

Definition at_boundary (prev : option N) (s : list N) : bool :=
  let thatp := from_option is_word false prev in
  let thisp := from_option is_word false (head s) in
  negb (eqb thisp thatp).

(** Backtracking match of [r] at the current position: [prev] is the
    character before it, [s] the text from it on, [k] what has to
    match after [r]. *)
Fixpoint re_match (r : regex) (prev : option N) (s : list N)
    (k : option N → list N → bool) : bool :=
  match r with
  | Empty => k prev s
  | Atom a =>
      match s with
      | x :: s' => atom_matches a x && k (Some x) s'
      | [] => false
      end
  | Repeat1 a => match_repeat1 a s k
  | Cat r1 r2 => re_match r1 prev s (λ p s', re_match r2 p s' k)
  | Alt r1 r2 => re_match r1 prev s k || re_match r2 prev s k
  | Opt r' => re_match r' prev s k || k prev s
  | WordBoundary => at_boundary prev s && k prev s
  end.

(** Try every start position, left to right. *)
Fixpoint search_from (r : regex) (prev : option N) (s : list N) : bool :=
  re_match r prev s (λ _ _, true)
  || match s with
     | [] => false
     | x :: s' => search_from r (Some x) s'
     end.
End Matcher.

(** [re.search(r, s, flags) is not None] *)
Definition re_search (r : regex) (s : list N) (ignorecase : bool) : bool :=
  search_from ignorecase r None s.

(** [p.search(s)] as a truth value. *)
Definition Pattern_search (p : Pattern) (s : list N) : bool :=
  re_search (pattern p) s (IGNORECASE p).

(** ** The monad of method calls

    A call runs in a world made of the object and of the state of the
    module-level generator, and ends by returning or by raising; what
    it wrote before raising stays written. *)

Record World := {
  self : GriefSupportBot;
  random : RandomState }.

Definition M (A : Type) : Type := World → outcome A * World.

#[local] Instance M_ret : MRet M := λ A a w, (Return a, w).
#[local] Instance M_bind : MBind M := λ A B k m w,
  match m w with
  | (Return a, w') => k a w'
  | (Raise e, w') => (Raise e, w')
  end.
Definition raise {A} (e : exn) : M A := λ w, (Raise e, w).

Definition get_self : M GriefSupportBot := λ w, (Return (self w), w).

(** [d[k]] *)
Definition dict_getitem {V} (d : gmap string V) (k : string) : M V :=
  match d !! k with
  | Some v => mret v
  | None => raise (KeyError k)
  end.

(** [l[i]] for [i >= 0] *)
Definition list_getitem {A} (l : list A) (i : nat) : M A :=
  match l !! i with
  | Some x => mret x
  | None => raise IndexError
  end.

(** [random.choice(l)]: the draw of the generator is folded into the
    range of the indices. *)
Definition random_choice {A} (l : list A) : M A :=
  match l with
  | [] => raise IndexError
  | _ =>
      λ w, let '(i, r) := randbelow (length l) (random w) in
           list_getitem l (i mod length l)%nat
             {| self := self w; random := r |}
  end.

(** [self._used_indexes[category] = used]: the writes [_choose] makes
    through its alias of the set stored in the dictionary. *)
Definition used_store (category : string) (used : gset nat) : M unit :=
  λ w, (Return tt,
        {| self := set_used_indexes (self w)
                     (<[category := used]> (_used_indexes (self w)));
           random := random w |}).

(** [self._used_indexes.setdefault(category, set())] *)
Definition used_setdefault (category : string) : M (gset nat) :=
  b ← get_self;
  match _used_indexes b !! category with
  | Some used => mret used
  | None => used_store category ∅;; mret ∅
  end.

(** ** The methods of [GriefSupportBot] *)

Definition __init__ (config : option BotConfig) : M unit :=
  λ w, let cfg := default BotConfig_default config in
       (Return tt,
        {| self := new_bot cfg;
           random := if deterministic cfg then random_seed 42
                     else random w |}).

Definition _pack (category text matched : string) : Response :=
  {| text := text; category := category; matched_terms := matched |}.

Definition _match_categories (b : GriefSupportBot) (text : list N)
    : gset string :=
  foldl (λ hits '(cat, pat),
           if Pattern_search pat text then {[cat]} ∪ hits else hits)
    ∅ (map_to_list (patterns b)).

Fixpoint pick_loop (cats : list string) (hits : gset string) : string :=
  match cats with
  | [] => "default"
  | cat :: cats' =>
      if bool_decide (cat ∈ hits) then cat else pick_loop cats' hits
  end.

Definition _pick_by_priority (b : GriefSupportBot) (hits : gset string)
    : string :=
  pick_loop (priorities b) hits.

Definition _explicit_help_request (text : list N) : bool :=
  re_search help_request_re text true.

Definition _choose (category : string) : M string :=
  b ← get_self;
  dflt ← dict_getitem (responses b) "default";
  let bank := default dflt (responses b !! category) in
  used ← used_setdefault category;
  let choices := filter (λ i, i ∉ used) (seq 0 (length bank)) in
  '(used, choices) ←
    match choices with
    | [] => used_store category ∅;; mret (∅, seq 0 (length bank))
    | _ => mret (used, choices)
    end;
  idx ← (if deterministic (cfg b) then list_getitem choices 0
          else random_choice choices);
  used_store category ({[idx]} ∪ used);;
  list_getitem bank idx.

Definition _choose_followup (category : string) : M string :=
  b ← get_self;
  match followups b !! category with
  | None | Some [] => mret ""
  | Some bank =>
      if deterministic (cfg b) then list_getitem bank 0
      else random_choice bank
  end.

Definition _self_care_recs : gmap string (list string) :=
  self_care_recs_table.

Definition _get_self_care_suggestion (message : list N) : M string :=
  let m := str_lower message in
  let cat :=
    if re_search physical_re m false then "physical"
    else if re_search social_re m false then "social"
    else if re_search spiritual_re m false then "spiritual"
    else if re_search practical_re m false then "practical"
    else "emotional" in
  recs ← dict_getitem _self_care_recs cat;
  b ← get_self;
  suggestion ← (if deterministic (cfg b) then list_getitem recs 0
                 else random_choice recs);
  mret ("It sounds like you could use support. " +:+ suggestion
       +:+ " Would you like another suggestion?").

(** [(message or "").strip()] *)
Definition str_strip (v : pyval) : M (list N) :=
  match v with
  | PyStr s => mret (strip s)
  | _ => raise AttributeError
  end.

(** [",".join(sorted(hits))] *)
Definition join_sorted (hits : gset string) : string :=
  String.concat "," (merge_sort String.le (elements hits)).

Definition get_response (message : pyval) : M Response :=
  text ← str_strip (py_or message (PyStr []));
  if bool_decide (text = []) then
    mret (_pack "default"
           "I’m here. Say anything that feels manageable to share." "")
  else
    b ← get_self;
    if Pattern_search (crisis_pattern b) text then
      reply ← _choose "crisis";
      mret (_pack "crisis" reply "crisis")
    else
      let hits := _match_categories b text in
      let category :=
        if bool_decide (hits ≠ ∅) then _pick_by_priority b hits
        else "default" in
      if _explicit_help_request text then
        suggestion ← _get_self_care_suggestion text;
        mret (_pack "self_care" suggestion "self_care(help)")
      else
        base ← _choose category;
        fu ← _choose_followup category;
        let reply :=
          if bool_decide (fu ≠ "") then base +:+ " " +:+ fu else base in
        mret (_pack category reply
               (if bool_decide (hits ≠ ∅) then join_sorted hits else "")).

(** ** The handlers of [app.py] *)

(** [v.get(key, dflt)]: only a dictionary has the method. *)
Definition json_get (v : json) (key : string) (dflt : json) : M json :=
  match v with
  | JObj fields => mret (default dflt (fields_lookup fields key))
  | _ => raise AttributeError
  end.

(** [v.strip()]: only a string has the method. *)
Definition json_strip (v : json) : M (list N) :=
  match v with
  | JStr s => mret (strip s)
  | _ => raise AttributeError
  end.

(** [api_chat]; [request_json] is what [request.get_json(silent=True)]
    returns, [JNull] for [None]. *)
Definition api_chat (request_json : json) : M (api_body * nat) :=
  let payload := json_or request_json (JObj []) in
  v ← json_get payload "message" JNull;
  msg ← json_strip (json_or v (JStr []));
  if bool_decide (msg = []) then mret (JsonError "Empty message", 400%nat)
  else
    resp ← get_response (PyStr msg);
    mret (JsonAnswer resp, 200%nat).

(** [handle_user_message]; the result is the list of the events it
    emits. *)
Definition handle_user_message (is_authenticated : bool) (data : json)
    : M (list Emitted) :=
  if negb is_authenticated then mret []
  else
    v ← json_get (json_or data (JObj [])) "message" (JStr []);
    user_message ← json_strip v;
    if bool_decide (user_message = []) then mret []
    else
      resp ← get_response (PyStr user_message);
      mret [{| event := "bot_message";
               emitted_user := "Grief Support Bot";
               emitted_message := text resp;
               emitted_category := category resp |}].

(** ** Vocabulary of the properties *)

(** The fixed reply to an empty message. *)
Definition invitation : Response :=
  {| text := "I’m here. Say anything that feels manageable to share.";
     category := "default";
     matched_terms := "" |}.

(** The world with the usage state of the object replaced. *)
Definition with_used (w : World) (used : gmap string (gset nat)) : World :=
  {| self := set_used_indexes (self w) used; random := random w |}.

(** The consumed indices of a category; none when it has no entry. *)
Definition consumed (b : GriefSupportBot) (category : string) : gset nat :=
  default ∅ (_used_indexes b !! category).

(** The indices [_choose] may pick from and the set it adds the pick
    to: the unused indices on top of the consumed ones, or all indices
    on top of nothing once none is unused. *)
Definition unused (n : nat) (old : gset nat) : list nat :=
  filter (λ i, i ∉ old) (seq 0 n).
Definition candidates (n : nat) (old : gset nat) : list nat :=
  match unused n old with [] => seq 0 n | l => l end.
Definition kept (n : nat) (old : gset nat) : gset nat :=
  match unused n old with [] => ∅ | _ => old end.

(** A [GriefSupportBot] after construction and any number of calls:
    the tables of [__init__] and some usage state. *)
Definition bot (config : BotConfig) (used : gmap string (gset nat))
    : GriefSupportBot :=
  set_used_indexes (new_bot config) used.

Definition world (config : BotConfig) (used : gmap string (gset nat))
    (r : RandomState) : World :=
  {| self := bot config used; random := r |}.

(** What a selection from the bank of a category does to the usage
    state of an object built by [__init__]: index [idx] holds [reply]
    and is a candidate, the first one in deterministic mode, and the
    category's set becomes the kept indices with [idx] added. *)
Definition chosen (config : BotConfig) (used : gmap string (gset nat))
    (cat : string) (idx : nat) (reply : string)
    (used' : gmap string (gset nat)) : Prop :=
  ∃ dflt,
    initial_responses !! "default" = Some dflt
    ∧ let bank := default dflt (initial_responses !! cat) in
      let old := default ∅ (used !! cat) in
      used' = <[cat := {[idx]} ∪ kept (length bank) old]> used
      ∧ idx ∈ candidates (length bank) old
      ∧ bank !! idx = Some reply
      ∧ (deterministic config = true →
         head (candidates (length bank) old) = Some idx).

(** The keyword groups in the order the specification tests them. *)
Definition keyword_groups : list (string * regex) :=
  [("physical", physical_re); ("social", social_re);
   ("spiritual", spiritual_re); ("practical", practical_re)].

(** The tag of a message as the specification words it: the first
    group with a keyword in the lower-cased text, [emotional] when no
    group has one. *)
Definition suggestion_tag (message : list N) : string :=
  match
    List.find (λ g, re_search g.2 (str_lower message) false) keyword_groups
  with
  | Some g => g.1
  | None => "emotional"
  end.

(** The category [get_response] resolves the hits to. *)
Definition resolved (b : GriefSupportBot) (text : list N) : string :=
  let hits := _match_categories b text in
  if bool_decide (hits ≠ ∅) then _pick_by_priority b hits else "default".

(** A category is matched by a text when its pattern of the table
    finds a match in it. *)
Definition matched (text : list N) (cat : string) : Prop :=
  ∃ pat, initial_patterns !! cat = Some pat ∧ Pattern_search pat text = true.

(** Category and matched terms as a function of the stripped text. *)
Definition classify (text : list N) : string * string :=
  if bool_decide (text = []) then ("default", "")
  else if Pattern_search initial_crisis_pattern text then ("crisis", "crisis")
  else if _explicit_help_request text then ("self_care", "self_care(help)")
  else
    let hits := _match_categories (new_bot BotConfig_default) text in
    (resolved (new_bot BotConfig_default) text,
     if bool_decide (hits ≠ ∅) then join_sorted hits else "").

(** A run of calls, one per message. *)
Fixpoint get_responses (messages : list (list N)) : M (list Response) :=
  match messages with
  | [] => mret []
  | message :: rest =>
      resp ← get_response (PyStr message);
      resps ← get_responses rest;
      mret (resp :: resps)
  end.

(** The calls that select from a reply bank: a string with text left
    after stripping that holds crisis language or does not ask for
    advice. *)
Definition selects (message : pyval) : bool :=
  match message with
  | PyStr s =>
      let t := strip s in
      negb (bool_decide (t = []))
      && (Pattern_search initial_crisis_pattern t
          || negb (_explicit_help_request t))
  | _ => false
  end.

(** [k] calls of a method in a row and the list of what they return. *)
Fixpoint repeat_call {A} (m : M A) (k : nat) : M (list A) :=
  match k with
  | O => mret []
  | S k' => x ← m; xs ← repeat_call m k'; mret (x :: xs)
  end.

(** The consumed set when the first [m] indices were returned. *)
Definition first_indices (m : nat) : gset nat := list_to_set (seq 0 m).

(** A computation that, on an object in deterministic mode, takes
    nothing from the generator: its outcome and the object it leaves do
    not depend on the state of the generator, which it hands back as it
    got it, and the object stays in deterministic mode. *)
Definition generator_free {A} (m : M A) : Prop :=
  ∀ (b : GriefSupportBot) (r1 r2 : RandomState),
    deterministic (cfg b) = true →
    ∃ o b',
      m {| self := b; random := r1 |} = (o, {| self := b'; random := r1 |})
      ∧ m {| self := b; random := r2 |} = (o, {| self := b'; random := r2 |})
      ∧ cfg b' = cfg b.

(** The usage states an object built by [__init__] can be in: every
    entry belongs to a category of the priority list and is a non-empty
    set of indices of that category's bank. *)
Definition usage_ok (used : gmap string (gset nat)) : Prop :=
  ∀ cat consumed_set,
    used !! cat = Some consumed_set →
    cat ∈ initial_priorities
    ∧ consumed_set ≠ ∅
    ∧ ∀ i, i ∈ consumed_set →
           (i < length (default [] (initial_responses !! cat)))%nat.

(** A message value that the REST handler treats as no message: a
    string with nothing but white space, or any falsy value. *)
Definition blank (v : json) : bool :=
  match v with
  | JStr s => bool_decide (strip s = [])
  | _ => negb (json_truthy v)
  end.

(** A pattern without [\b]: whether it matches at a position does not
    depend on what is around the match. *)
Fixpoint boundary_free (r : regex) : bool :=
  match r with
  | Empty | Atom _ | Repeat1 _ => true
  | Cat r1 r2 | Alt r1 r2 => boundary_free r1 && boundary_free r2
  | Opt r' => boundary_free r'
  | WordBoundary => false
  end.

(** Ways of writing crisis language that the crisis pattern spells out,
    in lower case. *)
Definition crisis_phrases : list string :=
  ["suicide"; "suicidal"; "kill myself"; "end my life"; "can't go on";
   "cant go on"; "don't want to live"; "dont want to live"; "self-harm";
   "self harm"; "selfharm"; "hurt myself"; "take my life"].

(** Whether the neighbour of a position counts as a word character for
    [\b]; the ends of the text do not. *)
Definition wordlike (c : option N) : bool := from_option is_word false c.

(** Category keywords that the category patterns spell out, in lower
    case, with the category of each. *)
Definition category_keywords : list (string * string) :=
  [("greeting", "hello"); ("greeting", "hi"); ("greeting", "hey");
   ("greeting", "greetings");
   ("feeling_bad", "sad"); ("feeling_bad", "depressed");
   ("feeling_bad", "overwhelmed"); ("feeling_bad", "exhausted");
   ("feeling_bad", "tired"); ("feeling_bad", "down");
   ("feeling_bad", "lonely"); ("feeling_bad", "alone");
   ("feeling_bad", "lost"); ("feeling_bad", "cry");
   ("feeling_bad", "crying"); ("feeling_bad", "tears");
   ("feeling_bad", "difficult"); ("feeling_bad", "hard");
   ("feeling_better", "better"); ("feeling_better", "good");
   ("feeling_better", "okay"); ("feeling_better", "ok");
   ("feeling_better", "fine"); ("feeling_better", "alright");
   ("feeling_better", "improving"); ("feeling_better", "hopeful");
   ("feeling_better", "positive");
   ("memories", "memory"); ("memories", "memories");
   ("memories", "remember"); ("memories", "remembered");
   ("memories", "miss"); ("memories", "missing");
   ("memories", "loved one");
   ("sleep_issues", "sleep"); ("sleep_issues", "insomnia");
   ("sleep_issues", "nightmare"); ("sleep_issues", "nightmares");
   ("sleep_issues", "dream"); ("sleep_issues", "dreams");
   ("sleep_issues", "awake"); ("sleep_issues", "bed");
   ("anniversary", "anniversary"); ("anniversary", "birthday");
   ("anniversary", "holiday"); ("anniversary", "christmas");
   ("anniversary", "thanksgiving"); ("anniversary", "special day");
   ("anniversary", "year since"); ("anniversary", "month since");
   ("guilt", "guilt"); ("guilt", "guilty"); ("guilt", "blame");
   ("guilt", "blamed"); ("guilt", "fault"); ("guilt", "regret");
   ("guilt", "should"); ("guilt", "should have"); ("guilt", "could");
   ("guilt", "could have"); ("guilt", "would"); ("guilt", "would have");
   ("guilt", "if only"); ("guilt", "sorry");
   ("anger", "angry"); ("anger", "anger"); ("anger", "mad");
   ("anger", "unfair"); ("anger", "cruel"); ("anger", "hate");
   ("anger", "resent"); ("anger", "resentment");
   ("self_care", "self-care"); ("self_care", "self care");
   ("self_care", "selfcare"); ("self_care", "take care");
   ("self_care", "help myself"); ("self_care", "shower");
   ("self_care", "eat"); ("self_care", "eating"); ("self_care", "food");
   ("self_care", "exercise"); ("self_care", "walk");
   ("support", "support"); ("support", "friend"); ("support", "friends");
   ("support", "family"); ("support", "help"); ("support", "talk");
   ("support", "talking"); ("support", "listen"); ("support", "listening");
   ("professional_help", "therapy"); ("professional_help", "therapist");
   ("professional_help", "counseling"); ("professional_help", "counselling");
   ("professional_help", "counselor"); ("professional_help", "counsellor");
   ("professional_help", "professional"); ("professional_help", "doctor");
   ("professional_help", "psychologist");
   ("professional_help", "psychiatrist")].

(** The ways of asking for advice that the request pattern spells
    out, in lower case. *)
Definition advice_keywords : list string :=
  ["suggest"; "recommendation"; "advice"; "tip"; "help"; "idea";
   "what can i do"; "what should i do"].

(** ** Properties *)

Lemma lstrip_whitespace (s : list N) :
  forallb Py_UNICODE_ISSPACE s = true → lstrip s = [].
Proof.
  induction s as [|x s IH]; simpl; [done|].
  intros [Hx Hs]%andb_true_iff. rewrite Hx. auto.
Qed.

Lemma strip_whitespace (s : list N) :
  forallb Py_UNICODE_ISSPACE s = true → strip s = [].
Proof.
  intros H. unfold strip, rstrip. by rewrite (lstrip_whitespace s H).
Qed.

Lemma falsy_path (w : World) (message : pyval) :
  truthy message = false →
  get_response message w = (Return invitation, w).
Proof. intros Hf. unfold get_response, py_or. rewrite Hf. done. Qed.

(** C2. A message that is empty or holds only white space gets the
    fixed invitation with category [default] and empty matched terms,
    whatever the tables and the usage state of the object are, and the
    object and the generator are left exactly as they were. *)
Theorem empty_message_default (w : World) (message : list N) :
  forallb Py_UNICODE_ISSPACE message = true →
  get_response (PyStr message) w
  = (Return {| text := "I’m here. Say anything that feels manageable to share.";
               category := "default"; matched_terms := "" |}, w).
Proof.
  intros Hws. unfold get_response, py_or.
  assert (Hs : strip message = []) by by apply strip_whitespace.
  destruct (truthy (PyStr message)); cbn; rewrite ?Hs; done.
Qed.

(** C10. A falsy argument in place of the string does not raise: the
    call behaves as on the empty string and returns the fixed
    invitation, leaving the world unchanged. *)
Theorem falsy_message_default (w : World) (message : pyval) :
  truthy message = false →
  get_response message w = get_response (PyStr []) w
  ∧ get_response message w
    = (Return {| text := "I’m here. Say anything that feels manageable to share.";
                 category := "default"; matched_terms := "" |}, w).
Proof.
  intros Hf. split; [|by apply falsy_path].
  by rewrite (falsy_path w message Hf), (falsy_path w (PyStr [])).
Qed.

(** *** Selection from a bank *)

Lemma random_choice_spec {A} (l : list A) (w : World) :
  l ≠ [] →
  ∃ x r', random_choice l w = (Return x, {| self := self w; random := r' |})
          ∧ x ∈ l.
Proof.
  intros Hl. unfold random_choice. destruct l as [|a l]; [done|].
  destruct (randbelow _ _) as [i r'] eqn:Hr.
  assert (Hlt : (i mod length (a :: l) < length (a :: l))%nat)
    by (apply Nat.mod_upper_bound; simpl; lia).
  destruct (lookup_lt_is_Some_2 _ _ Hlt) as [x Hx].
  exists x, r'. unfold list_getitem. rewrite Hx.
  split; [done|]. by eapply list_elem_of_lookup_2.
Qed.

(** Picking from a non-empty list of candidates: the first one in
    deterministic mode, some one otherwise. *)
Lemma pick_spec {A} (l : list A) (w : World) :
  l ≠ [] →
  ∃ x r',
    (if deterministic (cfg (self w)) then list_getitem l 0
     else random_choice l) w
    = (Return x, {| self := self w; random := r' |})
    ∧ x ∈ l
    ∧ (deterministic (cfg (self w)) = true → head l = Some x ∧ r' = random w).
Proof.
  intros Hl. destruct (deterministic (cfg (self w))) eqn:Hd.
  - destruct l as [|a l]; [done|]. exists a, (random w).
    destruct w; cbn. split_and!; [done|by left|done].
  - destruct (random_choice_spec l w Hl) as (x & r' & Hrun & Hin).
    exists x, r'. split_and!; [done|done|done].
Qed.

Lemma candidates_bound n old i : i ∈ candidates n old → (i < n)%nat.
Proof.
  unfold candidates, unused. destruct (filter _ _) eqn:Hf.
  - intros ?%elem_of_seq. lia.
  - rewrite <-Hf. intros [_ ?%elem_of_seq]%list_elem_of_filter. lia.
Qed.

Lemma candidates_nonempty n old : (0 < n)%nat → candidates n old ≠ [].
Proof.
  unfold candidates. destruct (unused n old) eqn:Hf; [|done].
  destruct n; [lia|done].
Qed.

Lemma run_bind {A B} (m : M A) (k : A → M B) (w w' : World) (a : A) :
  m w = (Return a, w') → (m ≫= k) w = k a w'.
Proof. intros H. unfold mbind, M_bind. by rewrite H. Qed.

Lemma used_store_run (cat : string) (used : gset nat) (w : World) :
  used_store cat used w
  = (Return tt, with_used w (<[cat := used]> (_used_indexes (self w)))).
Proof. done. Qed.

Lemma with_used_id (w : World) : with_used w (_used_indexes (self w)) = w.
Proof. by destruct w as [[] ?]. Qed.

Lemma used_setdefault_run (cat : string) (w : World) :
  used_setdefault cat w
  = (Return (consumed (self w) cat),
     with_used w (<[cat := consumed (self w) cat]> (_used_indexes (self w)))).
Proof.
  unfold used_setdefault, consumed.
  erewrite run_bind by reflexivity.
  destruct (_used_indexes (self w) !! cat) eqn:Hu; cbn.
  - by rewrite insert_id, with_used_id.
  - by erewrite run_bind by apply used_store_run.
Qed.

Lemma choose_spec (w : World) (cat : string) (dflt : list string) :
  responses (self w) !! "default" = Some dflt →
  let bank := default dflt (responses (self w) !! cat) in
  let old := consumed (self w) cat in
  bank ≠ [] →
  ∃ idx reply r',
    _choose cat w
    = (Return reply,
       {| self := set_used_indexes (self w)
                    (<[cat := {[idx]} ∪ kept (length bank) old]>
                       (_used_indexes (self w)));
          random := r' |})
    ∧ idx ∈ candidates (length bank) old
    ∧ bank !! idx = Some reply
    ∧ (deterministic (cfg (self w)) = true →
       head (candidates (length bank) old) = Some idx ∧ r' = random w).
Proof.
  intros Hdflt bank old Hbank.
  assert (Hn : (0 < length bank)%nat) by (destruct bank; [done|simpl; lia]).
  set (u := _used_indexes (self w)).
  set (w2 := with_used w (<[cat := kept (length bank) old]> u)).
  destruct (pick_spec (candidates (length bank) old) w2
              (candidates_nonempty _ old Hn))
    as (idx & r' & Hpick & Hin & Hdet).
  pose proof (candidates_bound _ _ _ Hin) as Hlt.
  destruct (lookup_lt_is_Some_2 bank idx Hlt) as [reply Hreply].
  exists idx, reply, r'. split_and!; [|done|done|done].
  unfold _choose.
  erewrite run_bind by reflexivity.
  erewrite run_bind by (unfold dict_getitem; by rewrite Hdflt).
  erewrite run_bind by apply used_setdefault_run.
  fold bank old u (unused (length bank) old).
  erewrite (run_bind _ _ _ w2 (kept (length bank) old,
                               candidates (length bank) old)).
  - cbn beta iota. erewrite run_bind by exact Hpick.
    erewrite run_bind by apply used_store_run.
    unfold list_getitem. rewrite Hreply.
    unfold with_used; cbn. by rewrite insert_insert_eq.
  - unfold w2, kept, candidates.
    destruct (unused (length bank) old) eqn:Hun.
    + erewrite run_bind by apply used_store_run.
      unfold with_used; cbn. by rewrite insert_insert_eq.
    + done.
Qed.

Lemma choose_followup_spec (w : World) (cat : string) :
  ∃ fu r',
    _choose_followup cat w
    = (Return fu, {| self := self w; random := r' |})
    ∧ match followups (self w) !! cat with
      | None | Some [] => fu = ""
      | Some bank =>
          fu ∈ bank
          ∧ (deterministic (cfg (self w)) = true →
             head bank = Some fu ∧ r' = random w)
      end.
Proof.
  unfold _choose_followup. erewrite run_bind by reflexivity.
  destruct (followups (self w) !! cat) as [[|f bank]|] eqn:Hf.
  - exists "", (random w). by destruct w.
  - destruct (pick_spec (f :: bank) w) as (fu & r' & Hrun & Hin & Hdet);
      [done|].
    exists fu, r'. done.
  - exists "", (random w). by destruct w.
Qed.

(** *** Objects built by [__init__] *)

Lemma init_world (config : option BotConfig) (w : World) :
  ∃ r, __init__ config w
       = (Return tt, world (default BotConfig_default config) ∅ r).
Proof. unfold __init__. eauto. Qed.

Lemma initial_default_bank :
  ∃ dflt, initial_responses !! "default" = Some dflt.
Proof. eexists. vm_compute. reflexivity. Qed.

Lemma initial_banks_nonempty :
  map_Forall (λ _ bank, bank ≠ @nil string) initial_responses.
Proof. apply (bool_decide_unpack _). vm_compute. exact I. Qed.

Lemma initial_bank_nonempty (cat : string) (dflt : list string) :
  initial_responses !! "default" = Some dflt →
  default dflt (initial_responses !! cat) ≠ [].
Proof.
  intros Hd. destruct (initial_responses !! cat) as [bank|] eqn:Hb; cbn.
  - exact (initial_banks_nonempty _ _ Hb).
  - exact (initial_banks_nonempty _ _ Hd).
Qed.

(** On an object built by [__init__], [_choose] returns for every
    category and leaves an object built by [__init__]. *)
Lemma choose_initial (config : BotConfig) (used : gmap string (gset nat))
    (r : RandomState) (cat : string) :
  ∃ idx reply used' r',
    _choose cat (world config used r)
    = (Return reply, world config used' r')
    ∧ chosen config used cat idx reply used'
    ∧ (deterministic config = true → r' = r).
Proof.
  destruct initial_default_bank as [dflt Hd].
  destruct (choose_spec (world config used r) cat dflt Hd
              (initial_bank_nonempty cat dflt Hd))
    as (idx & reply & r' & Hrun & Hin & Hreply & Hdet).
  exists idx, reply,
    (<[cat := {[idx]} ∪ kept (length (default dflt (initial_responses !! cat)))
                         (default ∅ (used !! cat))]> used), r'.
  split_and!; [exact Hrun| |].
  - exists dflt. cbn zeta.
    split_and!; [exact Hd|reflexivity|exact Hin|exact Hreply|].
    intros Hc. exact (proj1 (Hdet Hc)).
  - intros Hc. exact (proj2 (Hdet Hc)).
Qed.

(** C1. A message whose stripped text is not empty and is matched by
    the crisis pattern is answered with category [crisis], matched
    terms [crisis] and the one reply of the crisis bank, in either
    mode, from any usage state, and whatever else the text matches. *)
Theorem crisis_override (config : BotConfig)
    (used : gmap string (gset nat)) (r : RandomState) (message : list N) :
  strip message ≠ [] →
  Pattern_search initial_crisis_pattern (strip message) = true →
  ∃ reply w',
    initial_responses !! "crisis" = Some [reply]
    ∧ get_response (PyStr message) (world config used r)
      = (Return {| text := reply; category := "crisis";
                   matched_terms := "crisis" |}, w').
Proof.
  intros Hne Hcrisis.
  destruct (choose_initial config used r "crisis")
    as (idx & reply & used' & r' & Hrun & (dflt & Hd & Hch) & _).
  cbn zeta in Hch. destruct Hch as (_ & Hin & Hreply & _).
  assert (Hbank : ∃ x, initial_responses !! "crisis" = Some [x])
    by (eexists; vm_compute; reflexivity).
  destruct Hbank as [x Hx]. rewrite Hx in Hin, Hreply. cbn in Hin, Hreply.
  apply candidates_bound in Hin.
  assert (idx = 0)%nat as -> by lia.
  cbn in Hreply. injection Hreply as ->.
  eexists reply, _. split; [done|].
  unfold get_response, py_or.
  assert (Ht : truthy (PyStr message) = true).
  { destruct message; [done|]. cbn. done. }
  rewrite Ht. erewrite run_bind by reflexivity.
  rewrite bool_decide_eq_false_2 by done.
  erewrite run_bind by reflexivity. cbn [self world bot crisis_pattern set_used_indexes new_bot].
  rewrite Hcrisis.
  erewrite run_bind by exact Hrun. reflexivity.
Qed.

(** *** Matching and priority *)

Lemma match_categories_spec (b : GriefSupportBot) (text : list N)
    (cat : string) :
  cat ∈ _match_categories b text
  ↔ ∃ pat, patterns b !! cat = Some pat ∧ Pattern_search pat text = true.
Proof.
  unfold _match_categories.
  assert (Hfold : ∀ (l : list (string * Pattern)) (acc : gset string),
    cat ∈ foldl (λ hits '(cat, pat),
                   if Pattern_search pat text then {[cat]} ∪ hits else hits)
            acc l
    ↔ cat ∈ acc
      ∨ ∃ pat, (cat, pat) ∈ l ∧ Pattern_search pat text = true).
  { induction l as [|[k p] l IH]; intros acc; cbn.
    - split; [auto|]. intros [?|(? & ?%elem_of_nil & _)]; done.
    - rewrite IH. destruct (Pattern_search p text) eqn:Hp.
      + rewrite elem_of_union, elem_of_singleton. split.
        * intros [[->|?]|(pat & ? & ?)]; [right|by left|right].
          -- exists p. split; [by left|done].
          -- exists pat. split; [by right|done].
        * intros [?|(pat & [[= -> ->]|?]%elem_of_cons & ?)]; [auto|auto|].
          right. eauto.
      + split.
        * intros [?|(pat & ? & ?)]; [by left|right].
          exists pat. split; [by right|done].
        * intros [?|(pat & [[= -> ->]|?]%elem_of_cons & ?)];
            [auto|congruence|]. right. eauto. }
  rewrite Hfold. split.
  - intros [?%not_elem_of_empty|(pat & ?%elem_of_map_to_list & ?)];
      [done|eauto].
  - intros (pat & ?%elem_of_map_to_list & ?). eauto.
Qed.

Lemma pick_loop_none (cats : list string) (hits : gset string) :
  (∀ cat, cat ∈ cats → cat ∉ hits) → pick_loop cats hits = "default".
Proof.
  induction cats as [|cat cats IH]; intros H; cbn; [done|].
  rewrite bool_decide_eq_false_2 by (apply H; by left).
  apply IH. intros ? ?. apply H. by right.
Qed.

(** The loop returns the first category of the list that is a hit. *)
Lemma pick_loop_first (cats : list string) (hits : gset string) :
  (∃ cat, cat ∈ cats ∧ cat ∈ hits) →
  ∃ higher lower,
    cats = higher ++ pick_loop cats hits :: lower
    ∧ pick_loop cats hits ∈ hits
    ∧ ∀ cat, cat ∈ higher → cat ∉ hits.
Proof.
  induction cats as [|cat cats IH]; intros (x & Hx & Hhit).
  - by apply elem_of_nil in Hx.
  - cbn. destruct (bool_decide (cat ∈ hits)) eqn:Hc.
    + exists [], cats. apply bool_decide_eq_true in Hc.
      split_and!; [done|done|]. intros ? ?%elem_of_nil. done.
    + apply bool_decide_eq_false in Hc.
      apply elem_of_cons in Hx as [->|Hx]; [done|].
      destruct IH as (higher & lower & Heq & Hin & Hfirst); [eauto|].
      exists (cat :: higher), lower. split_and!.
      * cbn. by rewrite <-Heq.
      * done.
      * intros ? [->|?]%elem_of_cons; auto.
  Qed.

(** *** The self-care suggestion *)

Lemma suggestion_tag_chain (message : list N) :
  let m := str_lower message in
  (if re_search physical_re m false then "physical"
   else if re_search social_re m false then "social"
   else if re_search spiritual_re m false then "spiritual"
   else if re_search practical_re m false then "practical"
   else "emotional") = suggestion_tag message.
Proof.
  unfold suggestion_tag, keyword_groups. cbn [List.find fst snd].
  repeat (destruct (re_search _ _ _); [done|]). done.
Qed.

Lemma suggestion_tag_recs (message : list N) :
  ∃ recs, self_care_recs_table !! suggestion_tag message = Some recs
          ∧ recs ≠ [].
Proof.
  rewrite <-suggestion_tag_chain. cbn zeta.
  repeat (destruct (re_search _ _ _);
          [eexists; split; [vm_compute; reflexivity|done]|]).
  eexists; split; [vm_compute; reflexivity|done].
Qed.

Lemma suggestion_spec (w : World) (message : list N) :
  ∃ recs suggestion r',
    self_care_recs_table !! suggestion_tag message = Some recs
    ∧ _get_self_care_suggestion message w
      = (Return ("It sounds like you could use support. " +:+ suggestion
                 +:+ " Would you like another suggestion?"),
         {| self := self w; random := r' |})
    ∧ suggestion ∈ recs
    ∧ (deterministic (cfg (self w)) = true →
       head recs = Some suggestion ∧ r' = random w).
Proof.
  destruct (suggestion_tag_recs message) as (recs & Hrecs & Hne).
  destruct (pick_spec recs w Hne) as (suggestion & r' & Hrun & Hin & Hdet).
  exists recs, suggestion, r'. split_and!; [done| |done|done].
  unfold _get_self_care_suggestion. cbn zeta.
  rewrite (suggestion_tag_chain message).
  erewrite run_bind
    by (unfold dict_getitem, _self_care_recs; by rewrite Hrecs).
  erewrite run_bind by reflexivity.
  erewrite run_bind by exact Hrun. done.
Qed.

(** *** The paths of [get_response] *)

Lemma truthy_nonempty (message : list N) :
  strip message ≠ [] → truthy (PyStr message) = true.
Proof. destruct message; [done|]. intros _. done. Qed.

(** Past the empty check. *)
Ltac enter_get_response Hne :=
  unfold get_response, py_or;
  rewrite (truthy_nonempty _ Hne);
  erewrite run_bind by reflexivity;
  rewrite (bool_decide_eq_false_2 _ Hne);
  erewrite run_bind by reflexivity.

(** The path through the reply bank: no crisis, no request for advice. *)
Lemma reply_path (config : BotConfig) (used : gmap string (gset nat))
    (r : RandomState) (message : list N) :
  let text := strip message in
  let b := bot config used in
  let hits := _match_categories b text in
  text ≠ [] →
  Pattern_search initial_crisis_pattern text = false →
  _explicit_help_request text = false →
  ∃ idx base fu used' r1 r',
    _choose (resolved b text) (world config used r)
    = (Return base, world config used' r1)
    ∧ chosen config used (resolved b text) idx base used'
    ∧ _choose_followup (resolved b text) (world config used' r1)
      = (Return fu, world config used' r')
    ∧ match initial_followups !! resolved b text with
      | None | Some [] => fu = ""
      | Some bank =>
          fu ∈ bank ∧ (deterministic config = true → head bank = Some fu)
      end
    ∧ get_response (PyStr message) (world config used r)
      = (Return
           {| text := if bool_decide (fu ≠ "") then base +:+ " " +:+ fu
                      else base;
              category := resolved b text;
              matched_terms := if bool_decide (hits ≠ ∅)
                               then join_sorted hits else "" |},
         world config used' r').
Proof.
  intros text b hits Hne Hcrisis Hhelp.
  destruct (choose_initial config used r (resolved b text))
    as (idx & base & used' & r1 & Hrun & Hch & _).
  destruct (choose_followup_spec (world config used' r1) (resolved b text))
    as (fu & r' & Hfu & Hbank).
  exists idx, base, fu, used', r1, r'.
  split_and!; [exact Hrun|exact Hch|exact Hfu| |].
  { cbn [self world bot followups set_used_indexes new_bot cfg] in Hbank.
    destruct (initial_followups !! resolved b text) as [[|f bank]|];
      [done| |done].
    destruct Hbank as [? Hdet]. split; [done|]. intros Hd. by apply Hdet. }
  enter_get_response Hne.
  cbn [self world bot crisis_pattern set_used_indexes new_bot].
  fold text. rewrite Hcrisis, Hhelp.
  fold (bot config used) b hits. fold (resolved b text).
  erewrite run_bind by exact Hrun.
  erewrite run_bind by exact Hfu. done.
Qed.

Lemma empty_path (w : World) (message : list N) :
  strip message = [] →
  get_response (PyStr message) w = (Return invitation, w).
Proof.
  intros Hs. unfold get_response, py_or.
  destruct (truthy (PyStr message)); cbn; rewrite ?Hs; done.
Qed.

Lemma crisis_path (config : BotConfig) (used : gmap string (gset nat))
    (r : RandomState) (message : list N) :
  strip message ≠ [] →
  Pattern_search initial_crisis_pattern (strip message) = true →
  ∃ idx reply used' r',
    chosen config used "crisis" idx reply used'
    ∧ get_response (PyStr message) (world config used r)
      = (Return {| text := reply; category := "crisis";
                   matched_terms := "crisis" |},
         world config used' r').
Proof.
  intros Hne Hcrisis.
  destruct (choose_initial config used r "crisis")
    as (idx & reply & used' & r' & Hrun & Hch & _).
  exists idx, reply, used', r'. split; [exact Hch|].
  enter_get_response Hne.
  cbn [self world bot crisis_pattern set_used_indexes new_bot].
  rewrite Hcrisis. erewrite run_bind by exact Hrun. reflexivity.
Qed.

(** The advice path: no crisis, a request for advice. *)
Lemma advice_path (w : World) (message : list N) :
  let text := strip message in
  text ≠ [] →
  Pattern_search (crisis_pattern (self w)) text = false →
  _explicit_help_request text = true →
  ∃ recs suggestion r',
    self_care_recs_table !! suggestion_tag text = Some recs
    ∧ suggestion ∈ recs
    ∧ (deterministic (cfg (self w)) = true →
       head recs = Some suggestion ∧ r' = random w)
    ∧ _get_self_care_suggestion text w
      = (Return ("It sounds like you could use support. " +:+ suggestion
                 +:+ " Would you like another suggestion?"),
         {| self := self w; random := r' |})
    ∧ get_response (PyStr message) w
      = (Return
           {| text := "It sounds like you could use support. "
                      +:+ suggestion
                      +:+ " Would you like another suggestion?";
              category := "self_care";
              matched_terms := "self_care(help)" |},
         {| self := self w; random := r' |}).
Proof.
  intros text Hne Hcrisis Hhelp.
  destruct (suggestion_spec w text)
    as (recs & suggestion & r' & Hrecs & Hrun & Hin & Hdet).
  exists recs, suggestion, r'. split_and!; [done|done|done|done|].
  enter_get_response Hne. fold text. rewrite Hcrisis, Hhelp.
  erewrite run_bind by exact Hrun. done.
Qed.

Lemma matched_lookup (text : list N) (cat : string) :
  from_option (λ pat, Pattern_search pat text) false
    (initial_patterns !! cat) = true →
  matched text cat.
Proof.
  unfold matched. destruct (initial_patterns !! cat) as [pat|]; [|done].
  intros Hs. by exists pat.
Qed.

Lemma hits_matched (config : BotConfig) (used : gmap string (gset nat))
    (text : list N) (cat : string) :
  cat ∈ _match_categories (bot config used) text ↔ matched text cat.
Proof. apply match_categories_spec. Qed.

Lemma pattern_keys_prioritised :
  map_Forall (λ cat _, cat ∈ initial_priorities) initial_patterns.
Proof. apply (bool_decide_unpack _). vm_compute. exact I. Qed.

Lemma matched_prioritised (text : list N) (cat : string) :
  matched text cat → cat ∈ initial_priorities.
Proof. intros (pat & Hpat & _). exact (pattern_keys_prioritised _ _ Hpat). Qed.

Lemma crisis_not_matched (text : list N) : ¬ matched text "crisis".
Proof. intros (pat & Hpat & _). vm_compute in Hpat. done. Qed.

(** C3. Without crisis and without a request for advice, the category
    of the answer is [default] when no category pattern matches the
    text, and otherwise the first category of the priority list whose
    pattern matches; so a text matching [feeling_bad] and
    [anniversary] is answered as [anniversary]. *)
Theorem priority_resolution (config : BotConfig)
    (used : gmap string (gset nat)) (r : RandomState) (message : list N) :
  let text := strip message in
  text ≠ [] →
  Pattern_search initial_crisis_pattern text = false →
  _explicit_help_request text = false →
  ∃ resp w',
    get_response (PyStr message) (world config used r) = (Return resp, w')
    ∧ ((∀ cat, ¬ matched text cat) → category resp = "default")
    ∧ ((∃ cat, matched text cat) →
       ∃ higher lower,
         initial_priorities = higher ++ category resp :: lower
         ∧ matched text (category resp)
         ∧ ∀ cat, cat ∈ higher → ¬ matched text cat)
    ∧ (matched text "feeling_bad" → matched text "anniversary" →
       category resp = "anniversary").
Proof.
  intros text Hne Hcrisis Hhelp.
  destruct (reply_path config used r message Hne Hcrisis Hhelp)
    as (idx & base & fu & used' & r1 & r' & _ & _ & _ & _ & Hrun).
  eexists _, _. split; [exact Hrun|]. cbn [category].
  clear Hrun. fold text. unfold resolved, _pick_by_priority.
  cbn [priorities bot set_used_indexes new_bot].
  assert (Hspec : ∀ cat, cat ∈ _match_categories (bot config used) text
                         ↔ matched text cat)
    by (intros; apply hits_matched).
  fold (bot config used).
  generalize dependent (_match_categories (bot config used) text).
  intros hits Hspec.
  assert (Hnonempty : ∀ cat, cat ∈ hits → bool_decide (hits ≠ ∅) = true).
  { intros cat Hcat. apply bool_decide_eq_true_2. intros ->.
    by apply not_elem_of_empty in Hcat. }
  split_and!.
  - intros Hnone. rewrite bool_decide_eq_false_2; [done|].
    intros Hhits. apply set_choose_L in Hhits as [cat Hcat].
    apply Hspec in Hcat. by eapply Hnone.
  - intros [cat Hcat].
    assert (Hin : cat ∈ hits) by by apply Hspec.
    rewrite (Hnonempty _ Hin).
    destruct (pick_loop_first initial_priorities hits)
      as (higher & lower & Heq & Hpick & Hfirst).
    { exists cat. split; [by eapply matched_prioritised|done]. }
    exists higher, lower. split_and!; [done|by apply Hspec in Hpick|].
    intros c Hc Hm. apply (Hfirst c Hc). by apply Hspec.
  - intros Hbad Hann.
    assert (Hin : "anniversary" ∈ hits) by by apply Hspec.
    rewrite (Hnonempty _ Hin).
    unfold initial_priorities. cbn [pick_loop].
    rewrite bool_decide_eq_false_2.
    + by rewrite bool_decide_eq_true_2.
    + intros Hc%Hspec. by eapply crisis_not_matched.
Qed.

(** C4. A request for advice in a text without crisis is answered with
    category [self_care], matched terms [self_care(help)] and the
    self-care suggestion for the text, whatever the category patterns
    match, and the usage state of the reply banks is not touched; with
    crisis in the text the answer is the crisis one.  Each keyword of
    the request pattern alone is such a request. *)
Theorem advice_override (config : BotConfig)
    (used : gmap string (gset nat)) (r : RandomState) (message : list N) :
  let text := strip message in
  text ≠ [] →
  _explicit_help_request text = true →
  (Pattern_search initial_crisis_pattern text = false →
   ∃ suggestion r',
     _get_self_care_suggestion text (world config used r)
     = (Return suggestion, world config used r')
     ∧ get_response (PyStr message) (world config used r)
       = (Return {| text := suggestion; category := "self_care";
                    matched_terms := "self_care(help)" |},
          world config used r'))
  ∧ (Pattern_search initial_crisis_pattern text = true →
     ∃ resp w',
       get_response (PyStr message) (world config used r) = (Return resp, w')
       ∧ category resp = "crisis"
       ∧ matched_terms resp = "crisis")
  ∧ Forall (λ kw, _explicit_help_request (codes kw) = true)
      ["suggest"; "recommendation"; "advice"; "tip"; "help"; "idea";
       "what can I do"; "what should I do"].
Proof.
  intros text Hne Hhelp. split_and!.
  - intros Hcrisis.
    destruct (advice_path (world config used r) message Hne Hcrisis Hhelp)
      as (recs & suggestion & r' & _ & _ & _ & Hsug & Hrun).
    eexists _, r'. split; [exact Hsug|exact Hrun].
  - intros Hcrisis.
    destruct (crisis_path config used r message Hne Hcrisis)
      as (idx & reply & used' & r' & _ & Hrun).
    eexists _, _. split; [exact Hrun|done].
  - repeat (apply Forall_cons; split; [vm_compute; reflexivity|]).
    apply Forall_nil_2.
Qed.

(** C7. The suggestion is taken from the list of the tag the
    specification assigns: the groups are tested in the order
    physical, social, spiritual, practical, the first with a keyword
    wins and [emotional] is the rest; it is returned inside the fixed
    sentence.  A text with [tired] and [friend] is physical. *)
Theorem self_care_classification (w : World) (message : list N) :
  let m := str_lower message in
  let tag := suggestion_tag message in
  (∃ recs suggestion r',
     self_care_recs_table !! tag = Some recs
     ∧ suggestion ∈ recs
     ∧ (deterministic (cfg (self w)) = true → head recs = Some suggestion)
     ∧ _get_self_care_suggestion message w
       = (Return ("It sounds like you could use support. " +:+ suggestion
                  +:+ " Would you like another suggestion?"),
          {| self := self w; random := r' |}))
  ∧ (re_search physical_re m false = true → tag = "physical")
  ∧ (re_search physical_re m false = false →
     re_search social_re m false = true → tag = "social")
  ∧ (re_search physical_re m false = false →
     re_search social_re m false = false →
     re_search spiritual_re m false = true → tag = "spiritual")
  ∧ (re_search physical_re m false = false →
     re_search social_re m false = false →
     re_search spiritual_re m false = false →
     re_search practical_re m false = true → tag = "practical")
  ∧ (re_search physical_re m false = false →
     re_search social_re m false = false →
     re_search spiritual_re m false = false →
     re_search practical_re m false = false → tag = "emotional")
  ∧ (let t := codes "I am Tired, maybe I should call a friend" in
     re_search physical_re (str_lower t) false = true
     ∧ re_search social_re (str_lower t) false = true
     ∧ suggestion_tag t = "physical").
Proof.
  intros m tag. split_and!.
  - destruct (suggestion_spec w message)
      as (recs & suggestion & r' & Hrecs & Hrun & Hin & Hdet).
    exists recs, suggestion, r'. split_and!; [done|done| |done].
    intros Hd. by apply Hdet.
  - unfold tag. rewrite <-suggestion_tag_chain. cbn zeta. fold m.
    by intros ->.
  - unfold tag. rewrite <-suggestion_tag_chain. cbn zeta. fold m.
    by intros -> ->.
  - unfold tag. rewrite <-suggestion_tag_chain. cbn zeta. fold m.
    by intros -> -> ->.
  - unfold tag. rewrite <-suggestion_tag_chain. cbn zeta. fold m.
    by intros -> -> -> ->.
  - unfold tag. rewrite <-suggestion_tag_chain. cbn zeta. fold m.
    by intros -> -> -> ->.
  - vm_compute. done.
Qed.

(** *** Follow-ups *)

Lemma initial_followups_proper :
  map_Forall (λ _ bank, bank ≠ [] ∧ "" ∉ bank) initial_followups.
Proof. apply (bool_decide_unpack _). vm_compute. exact I. Qed.

(** C6, as the code has it.  On the path through the reply bank the
    follow-up is left out exactly for a category without follow-ups;
    otherwise one follow-up of the category comes after the reply and
    a space, the first of the bank in deterministic mode; its
    selection neither reads nor writes the usage state. *)
Theorem followup_selection (config : BotConfig)
    (used : gmap string (gset nat)) (r : RandomState) (message : list N) :
  let stripped := strip message in
  stripped ≠ [] →
  Pattern_search initial_crisis_pattern stripped = false →
  _explicit_help_request stripped = false →
  ∃ resp base used' r1 r',
    get_response (PyStr message) (world config used r)
    = (Return resp, world config used' r')
    ∧ _choose (category resp) (world config used r)
      = (Return base, world config used' r1)
    ∧ match initial_followups !! category resp with
      | None => text resp = base
      | Some bank =>
          ∃ fu, fu ∈ bank
                ∧ text resp = base +:+ " " +:+ fu
                ∧ (deterministic config = true → head bank = Some fu)
      end.
Proof.
  intros stripped Hne Hcrisis Hhelp.
  destruct (reply_path config used r message Hne Hcrisis Hhelp)
    as (idx & base & fu & used' & r1 & r' & Hbase & _ & _ & Hfu & Hrun).
  eexists _, base, used', r1, r'. split; [exact Hrun|].
  cbn [category text]. split; [exact Hbase|].
  fold stripped in Hfu |- *. clear Hrun Hbase.
  generalize dependent (resolved (bot config used) stripped).
  intros cat Hfu.
  destruct (initial_followups !! cat) as [bank|] eqn:Hbank.
  2: { subst fu. reflexivity. }
  destruct (initial_followups_proper _ _ Hbank) as [Hnil Hno].
  destruct bank as [|f bank]; [done|]. destruct Hfu as [Hin Hdet].
  exists fu. split_and!; [exact Hin| |exact Hdet].
  rewrite bool_decide_eq_true_2; [reflexivity|]. intros ->. done.
Qed.

(** *** Every call returns, and what it leaves *)

Lemma resolved_bot (config : BotConfig) (used : gmap string (gset nat))
    (text : list N) :
  resolved (bot config used) text = resolved (new_bot BotConfig_default) text.
Proof. reflexivity. Qed.

Lemma match_categories_bot (config : BotConfig)
    (used : gmap string (gset nat)) (text : list N) :
  _match_categories (bot config used) text
  = _match_categories (new_bot BotConfig_default) text.
Proof. reflexivity. Qed.

Lemma get_response_classify (config : BotConfig)
    (used : gmap string (gset nat)) (r : RandomState) (message : list N) :
  ∃ resp used' r',
    get_response (PyStr message) (world config used r)
    = (Return resp, world config used' r')
    ∧ (category resp, matched_terms resp) = classify (strip message).
Proof.
  unfold classify.
  destruct (decide (strip message = [])) as [Hs|Hne].
  { rewrite (empty_path _ _ Hs), (bool_decide_eq_true_2 _ Hs).
    by exists invitation, used, r. }
  rewrite (bool_decide_eq_false_2 _ Hne).
  destruct (Pattern_search initial_crisis_pattern (strip message)) eqn:Hc.
  { destruct (crisis_path config used r message Hne Hc)
      as (idx & reply & used' & r' & _ & Hrun).
    rewrite Hrun. by eexists _, used', r'. }
  destruct (_explicit_help_request (strip message)) eqn:Hh.
  { destruct (advice_path (world config used r) message Hne Hc Hh)
      as (recs & suggestion & r' & _ & _ & _ & _ & Hrun).
    rewrite Hrun. by eexists _, used, r'. }
  destruct (reply_path config used r message Hne Hc Hh)
    as (idx & base & fu & used' & r1 & r' & _ & _ & _ & _ & Hrun).
  rewrite Hrun. eexists _, used', r'. split; [reflexivity|].
  cbn [category matched_terms].
  by rewrite resolved_bot, match_categories_bot.
Qed.

Lemma get_responses_world (config : BotConfig) (messages : list (list N)) :
  ∀ (used : gmap string (gset nat)) (r : RandomState),
  ∃ resps used' r',
    get_responses messages (world config used r)
    = (Return resps, world config used' r').
Proof.
  induction messages as [|message rest IH]; intros used r; cbn.
  - by exists [], used, r.
  - destruct (get_response_classify config used r message)
      as (resp & used1 & r1 & Hrun & _).
    destruct (IH used1 r1) as (resps & used' & r' & Hrest).
    exists (resp :: resps), used', r'.
    erewrite run_bind by exact Hrun.
    erewrite run_bind by exact Hrest. reflexivity.
Qed.

(** C8. The category and the matched terms of the answer to a text,
    and the set of matched categories, do not depend on the usage
    state or on the generator: two calls from any two usage states
    agree on them, and so do a call before and a call after any run of
    calls on other messages. *)
Theorem classification_stateless (config : BotConfig)
    (used1 used2 : gmap string (gset nat)) (r1 r2 : RandomState)
    (others : list (list N)) (message : list N) :
  ∃ resp1 w1 resp2 w2,
    get_response (PyStr message) (world config used1 r1) = (Return resp1, w1)
    ∧ get_response (PyStr message) (world config used2 r2)
      = (Return resp2, w2)
    ∧ category resp1 = category resp2
    ∧ matched_terms resp1 = matched_terms resp2
    ∧ _match_categories (bot config used1) (strip message)
      = _match_categories (bot config used2) (strip message)
    ∧ ∃ resps w3 resp3 w4,
        get_responses others w1 = (Return resps, w3)
        ∧ get_response (PyStr message) w3 = (Return resp3, w4)
        ∧ _match_categories (self w3) (strip message)
          = _match_categories (bot config used1) (strip message)
        ∧ category resp3 = category resp1
        ∧ matched_terms resp3 = matched_terms resp1.
Proof.
  destruct (get_response_classify config used1 r1 message)
    as (resp1 & u1 & s1 & Hrun1 & Hc1).
  destruct (get_response_classify config used2 r2 message)
    as (resp2 & u2 & s2 & Hrun2 & Hc2).
  destruct (get_responses_world config others u1 s1)
    as (resps & u3 & s3 & Hrun3).
  destruct (get_response_classify config u3 s3 message)
    as (resp3 & u4 & s4 & Hrun4 & Hc4).
  exists resp1, (world config u1 s1), resp2, (world config u2 s2).
  split_and!; [exact Hrun1|exact Hrun2| | |reflexivity|].
  - congruence.
  - congruence.
  - exists resps, (world config u3 s3), resp3, (world config u4 s4).
    split_and!; [exact Hrun3|exact Hrun4|reflexivity| |]; congruence.
Qed.

Lemma selection_cases (n : nat) (old : gset nat) (idx : nat) :
  idx ∈ candidates n old →
  (idx < n)%nat
  ∧ (((idx ∉ old) ∧ kept n old = old)
     ∨ ((∀ i, (i < n)%nat → i ∈ old) ∧ kept n old = ∅)).
Proof.
  intros Hin. split; [by eapply candidates_bound|].
  unfold candidates, kept, unused in *.
  destruct (filter _ _) as [|i0 l] eqn:Hf.
  - right. split; [|done]. intros i Hi.
    destruct (decide (i ∈ old)) as [|Hno]; [done|].
    exfalso. eapply (filter_nil_not_elem_of _ _ i Hf Hno).
    apply elem_of_seq. lia.
  - left. rewrite <-Hf in Hin.
    apply list_elem_of_filter in Hin as [Hno _]. done.
Qed.

Lemma chosen_recorded (config : BotConfig) (used used' : gmap string (gset nat))
    (cat : string) (idx : nat) (base : string) :
  chosen config used cat idx base used' →
  ∃ dflt,
    initial_responses !! "default" = Some dflt
    ∧ let bank := default dflt (initial_responses !! cat) in
      let old := default ∅ (used !! cat) in
      bank !! idx = Some base
      ∧ (((idx ∉ old) ∧ used' = <[cat := {[idx]} ∪ old]> used)
         ∨ ((∀ i, (i < length bank)%nat → i ∈ old)
            ∧ used' = <[cat := {[idx]}]> used)).
Proof.
  intros (dflt & Hd & Hch). cbn zeta in Hch.
  destruct Hch as (-> & Hin & Hbase & _).
  exists dflt. cbn zeta. split_and!; [exact Hd|exact Hbase|].
  destruct (selection_cases _ _ _ Hin) as [_ [[Hno ->]|[Hall ->]]].
  - by left.
  - right. split; [exact Hall|]. by rewrite union_empty_r_L.
Qed.

(** C9. A call leaves an object with the tables and the configuration
    of [__init__]; only the usage state can differ.  It differs at
    most at the category of the answer and only by a selection: the
    selected index is added to the category's set, or is alone in it
    when all indices of the bank were consumed before.  Every answer
    taken from a reply bank records its index this way, and the calls
    that take none leave the usage state as it was. *)
Theorem usage_state_only (config : BotConfig)
    (used : gmap string (gset nat)) (r : RandomState) (message : pyval) :
  ∃ o used' r',
    get_response message (world config used r) = (o, world config used' r')
    ∧ (selects message = false → used' = used)
    ∧ (selects message = true →
       ∃ resp dflt idx base,
         o = Return resp
         ∧ initial_responses !! "default" = Some dflt
         ∧ let cat := category resp in
           let bank := default dflt (initial_responses !! cat) in
           let old := default ∅ (used !! cat) in
           bank !! idx = Some base
           ∧ (text resp = base ∨ ∃ fu, text resp = base +:+ " " +:+ fu)
           ∧ (((idx ∉ old) ∧ used' = <[cat := {[idx]} ∪ old]> used)
              ∨ ((∀ i, (i < length bank)%nat → i ∈ old)
                 ∧ used' = <[cat := {[idx]}]> used))).
Proof.
  assert (Hfalsy : ∀ v, truthy v = false → selects v = false →
    ∃ o used' r',
      get_response v (world config used r) = (o, world config used' r')
      ∧ (selects v = false → used' = used)
      ∧ (selects v = true → ∃ resp dflt idx base,
           o = Return resp
           ∧ initial_responses !! "default" = Some dflt
           ∧ let cat := category resp in
             let bank := default dflt (initial_responses !! cat) in
             let old := default ∅ (used !! cat) in
             bank !! idx = Some base
             ∧ (text resp = base ∨ ∃ fu, text resp = base +:+ " " +:+ fu)
             ∧ (((idx ∉ old) ∧ used' = <[cat := {[idx]} ∪ old]> used)
                ∨ ((∀ i, (i < length bank)%nat → i ∈ old)
                   ∧ used' = <[cat := {[idx]}]> used)))).
  { intros v Hv Hsel.
    rewrite (falsy_path (world config used r) v Hv).
    exists (Return invitation), used, r.
    split_and!; [reflexivity|done|]. rewrite Hsel. done. }
  assert (Hraise : ∀ v, get_response v (world config used r)
                        = (Raise AttributeError, world config used r) →
                        selects v = false →
    ∃ o used' r',
      get_response v (world config used r) = (o, world config used' r')
      ∧ (selects v = false → used' = used)
      ∧ (selects v = true → ∃ resp dflt idx base,
           o = Return resp
           ∧ initial_responses !! "default" = Some dflt
           ∧ let cat := category resp in
             let bank := default dflt (initial_responses !! cat) in
             let old := default ∅ (used !! cat) in
             bank !! idx = Some base
             ∧ (text resp = base ∨ ∃ fu, text resp = base +:+ " " +:+ fu)
             ∧ (((idx ∉ old) ∧ used' = <[cat := {[idx]} ∪ old]> used)
                ∨ ((∀ i, (i < length bank)%nat → i ∈ old)
                   ∧ used' = <[cat := {[idx]}]> used)))).
  { intros v Hv Hsel. rewrite Hv.
    exists (Raise AttributeError), used, r.
    split_and!; [reflexivity|done|]. rewrite Hsel. done. }
  destruct message as [|[]|z|s|[|item items]];
    try (apply Hfalsy; reflexivity); try (apply Hraise; reflexivity).
  { destruct (z =? 0)%Z eqn:Hz.
    - apply Hfalsy; [cbn; by rewrite Hz|reflexivity].
    - apply Hraise; [|reflexivity].
      unfold get_response, py_or. cbn. by rewrite Hz. }
  cbn [selects]. cbn zeta.
  destruct (decide (strip s = [])) as [Hs|Hne].
  { rewrite (empty_path _ _ Hs), (bool_decide_eq_true_2 _ Hs).
    exists (Return invitation), used, r. done. }
  rewrite (bool_decide_eq_false_2 _ Hne). cbn [negb andb].
  destruct (Pattern_search initial_crisis_pattern (strip s)) eqn:Hc.
  { destruct (crisis_path config used r s Hne Hc)
      as (idx & reply & used' & r' & Hch & Hrun).
    rewrite Hrun. eexists _, used', r'.
    split_and!; [reflexivity|done|]. intros _.
    destruct (chosen_recorded _ _ _ _ _ _ Hch) as (dflt & Hd & Hb & Hu).
    eexists _, dflt, idx, reply. cbn [category text].
    split_and!; [reflexivity|exact Hd|exact Hb|by left|exact Hu]. }
  destruct (_explicit_help_request (strip s)) eqn:Hh; cbn [orb negb].
  { destruct (advice_path (world config used r) s Hne Hc Hh)
      as (recs & suggestion & r' & _ & _ & _ & _ & Hrun).
    rewrite Hrun. eexists _, used, r'. done. }
  destruct (reply_path config used r s Hne Hc Hh)
    as (idx & base & fu & used' & r1 & r' & _ & Hch & _ & _ & Hrun).
  rewrite Hrun. clear Hrun. eexists _, used', r'.
  split_and!; [reflexivity|done|]. intros _.
  generalize dependent (resolved (bot config used) (strip s)).
  intros cat Hch.
  destruct (chosen_recorded _ _ _ _ _ _ Hch) as (dflt & Hd & Hb & Hu).
  eexists _, dflt, idx, base. cbn [category text].
  split_and!; [reflexivity|exact Hd|exact Hb| |exact Hu].
  destruct (bool_decide (fu ≠ "")); [right; by exists fu|by left].
Qed.

(** *** The cycle of deterministic selection *)

Lemma elem_of_first_indices (m i : nat) : i ∈ first_indices m ↔ (i < m)%nat.
Proof.
  unfold first_indices. rewrite elem_of_list_to_set, elem_of_seq. lia.
Qed.

Lemma unused_first_indices (n m : nat) :
  (m ≤ n)%nat → unused n (first_indices m) = seq m (n - m).
Proof.
  intros Hle. unfold unused.
  replace n with (m + (n - m))%nat at 1 by lia.
  rewrite seq_app, filter_app. cbn [plus].
  assert (Hlow : ∀ a len, (a + len ≤ m)%nat →
            filter (λ i, i ∉ first_indices m) (seq a len) = []).
  { intros a len. revert a. induction len as [|len IH]; intros a Ha; [done|].
    cbn [seq]. rewrite filter_cons_False.
    - apply IH. lia.
    - intros Hno. apply Hno, elem_of_first_indices. lia. }
  assert (Hhigh : ∀ a len, (m ≤ a)%nat →
            filter (λ i, i ∉ first_indices m) (seq a len) = seq a len).
  { intros a len. revert a. induction len as [|len IH]; intros a Ha; [done|].
    cbn [seq]. rewrite filter_cons_True.
    - f_equal. apply IH. lia.
    - rewrite elem_of_first_indices. lia. }
  rewrite Hlow by lia. rewrite Hhigh by lia. done.
Qed.

Lemma first_indices_succ (m : nat) :
  {[m]} ∪ first_indices m = first_indices (m + 1).
Proof.
  apply set_eq. intros i.
  rewrite elem_of_union, elem_of_singleton, !elem_of_first_indices. lia.
Qed.

(** One deterministic selection when the first [m] indices of the bank
    are consumed: index [m mod n] is returned and the first
    [m mod n + 1] indices are consumed afterwards. *)
Lemma choose_det_step (w : World) (cat : string) (dflt : list string)
    (m : nat) :
  deterministic (cfg (self w)) = true →
  responses (self w) !! "default" = Some dflt →
  let bank := default dflt (responses (self w) !! cat) in
  let n := length bank in
  bank ≠ [] →
  (m ≤ n)%nat →
  consumed (self w) cat = first_indices m →
  ∃ reply w',
    _choose cat w = (Return reply, w')
    ∧ bank !! (m mod n)%nat = Some reply
    ∧ consumed (self w') cat = first_indices (m mod n + 1)
    ∧ responses (self w') = responses (self w)
    ∧ cfg (self w') = cfg (self w).
Proof.
  intros Hdet Hd bank n Hbank Hle Hold.
  assert (Hn : (0 < n)%nat) by (unfold n; destruct bank; [done|simpl; lia]).
  destruct (choose_spec w cat dflt Hd Hbank)
    as (idx & reply & r' & Hrun & _ & Hreply & Hhead).
  destruct (Hhead Hdet) as [Hidx _]. clear Hhead.
  fold bank n in Hrun, Hreply, Hidx. rewrite Hold in Hrun, Hidx.
  unfold candidates, kept in Hrun, Hidx.
  rewrite (unused_first_indices n m Hle) in Hrun, Hidx.
  eexists reply, _. split; [exact Hrun|].
  unfold consumed. cbn [self set_used_indexes _used_indexes responses cfg].
  rewrite lookup_insert_eq. cbn [default from_option id].
  destruct (decide (m = n)) as [->|Hne].
  - rewrite Nat.sub_diag in Hidx |- *. cbn [seq] in Hidx |- *.
    rewrite Nat.Div0.mod_same.
    destruct n as [|n']; [lia|]. cbn in Hidx. injection Hidx as <-.
    split_and!; [exact Hreply| |done|done].
    rewrite union_empty_r_L. apply set_eq. intros i.
    rewrite elem_of_singleton, elem_of_first_indices. lia.
  - rewrite (Nat.mod_small m n) by lia.
    destruct (n - m)%nat as [|d] eqn:Hnm; [lia|].
    cbn [seq head] in Hidx |- *. injection Hidx as <-.
    split_and!; [exact Hreply| |done|done].
    apply first_indices_succ.
Qed.

Lemma cycle_from (cat : string) (dflt : list string) (k : nat) :
  ∀ (w : World) (m : nat),
  deterministic (cfg (self w)) = true →
  responses (self w) !! "default" = Some dflt →
  let bank := default dflt (responses (self w) !! cat) in
  let n := length bank in
  bank ≠ [] →
  (m ≤ n)%nat →
  consumed (self w) cat = first_indices m →
  ∃ replies w',
    repeat_call (_choose cat) k w = (Return replies, w')
    ∧ length replies = k
    ∧ (∀ j, (j < k)%nat → replies !! j = bank !! ((m + j) mod n)%nat)
    ∧ consumed (self w') cat
      = first_indices (match k with
                       | O => m
                       | S k' => (m + k') mod n + 1
                       end).
Proof.
  induction k as [|k IH]; intros w m Hdet Hd bank n Hbank Hle Hold.
  - exists [], w. cbn. split_and!; [done|done| |done]. intros j Hj. lia.
  - destruct (choose_det_step w cat dflt m Hdet Hd Hbank Hle Hold)
      as (reply & w1 & Hrun & Hreply & Hcons & Hresp & Hcfg).
    fold bank n in Hreply, Hcons.
    assert (Hn : (0 < n)%nat)
      by (unfold n; destruct bank; [done|simpl; lia]).
    assert (Hlt : (m mod n < n)%nat) by (apply Nat.mod_upper_bound; lia).
    destruct (IH w1 (m mod n + 1)%nat) as (replies & w' & Hrest & Hlen & Hnth & Hfin).
    + by rewrite Hcfg.
    + by rewrite Hresp.
    + rewrite Hresp. exact Hbank.
    + rewrite Hresp. fold bank n. lia.
    + exact Hcons.
    + rewrite Hresp in Hnth, Hfin. fold bank n in Hnth, Hfin.
      exists (reply :: replies), w'. split_and!.
      * cbn [repeat_call]. erewrite run_bind by exact Hrun.
        erewrite run_bind by exact Hrest. reflexivity.
      * cbn. by rewrite Hlen.
      * intros [|j] Hj; cbn.
        -- by rewrite Nat.add_0_r.
        -- rewrite Hnth by lia.
           replace (m mod n + 1 + j)%nat with (m mod n + (1 + j))%nat by lia.
           rewrite Nat.Div0.add_mod_idemp_l.
           by replace (m + S j)%nat with (m + (1 + j))%nat by lia.
      * rewrite Hfin. destruct k as [|k']; [by rewrite Nat.add_0_r|].
        replace (m mod n + 1 + k')%nat with (m mod n + (1 + k'))%nat by lia.
        rewrite Nat.Div0.add_mod_idemp_l.
        by replace (m + S k')%nat with (m + (1 + k'))%nat by lia.
Qed.

Lemma window_distinct (n m i j : nat) :
  (i < j)%nat → (j < i + n)%nat → ((m + i) mod n ≠ (m + j) mod n)%nat.
Proof.
  intros Hij Hjn Heq.
  assert (Hn : n ≠ 0%nat) by lia.
  pose proof (Nat.div_mod_eq (m + i) n) as Hi.
  pose proof (Nat.div_mod_eq (m + j) n) as Hj.
  rewrite Heq in Hi.
  assert (Hd : (n * ((m + j) `div` n) = n * ((m + i) `div` n) + (j - i))%nat)
    by lia.
  assert (Hle : ((m + i) `div` n ≤ (m + j) `div` n)%nat)
    by (apply Nat.Div0.div_le_mono; lia).
  set (qi := ((m + i) `div` n)%nat) in *.
  set (qj := ((m + j) `div` n)%nat) in *.
  destruct (decide (qj = qi)) as [Hq|Hq]; [rewrite Hq in Hd; lia|].
  assert (Hmul : (n * (qi + 1) ≤ n * qj)%nat)
    by (apply Nat.mul_le_mono_l; lia).
  lia.
Qed.

(** C5. In deterministic mode, for a category whose bank has [n]
    entries of which the first [m] are consumed (nothing, on a fresh
    object), the [j]-th selection from then on returns entry
    [(m + j) mod n]: the indices go up one by one, no index comes
    twice among [n] selections in a row, the consumed set is reset
    only by the selection that finds all [n] indices consumed, which
    returns entry [0] again; from nothing consumed [n] selections
    return the bank in its order, and a bank of one entry returns it on
    every call.  Four answers to [hi] are the three distinct greetings
    in order and then the first one again. *)
Theorem deterministic_cycle (w : World) (cat : string)
    (dflt : list string) (m k : nat) (r : RandomState) :
  deterministic (cfg (self w)) = true →
  responses (self w) !! "default" = Some dflt →
  let bank := default dflt (responses (self w) !! cat) in
  let n := length bank in
  bank ≠ [] →
  (m ≤ n)%nat →
  consumed (self w) cat = first_indices m →
  (∃ replies w',
     repeat_call (_choose cat) k w = (Return replies, w')
     ∧ length replies = k
     ∧ (∀ j, (j < k)%nat → replies !! j = bank !! ((m + j) mod n)%nat)
     ∧ (∀ i j, (i < j)%nat → (j < i + n)%nat →
        ((m + i) mod n ≠ (m + j) mod n)%nat)
     ∧ (m = 0%nat → k = n → replies = bank)
     ∧ (n = 1%nat → ∀ j, (j < k)%nat → replies !! j = bank !! 0%nat)
     ∧ ((0 < k)%nat →
        consumed (self w') cat = first_indices ((m + k - 1) mod n + 1)))
  ∧ (∃ g0 g1 g2,
       initial_responses !! "greeting" = Some [g0; g1; g2]
       ∧ NoDup [g0; g1; g2]
       ∧ let hi := get_response (PyStr (codes "hi")) in
         let answer g := {| text := g; category := "greeting";
                            matched_terms := "greeting" |} in
         (repeat_call hi 4 (world test_config ∅ r)).1
         = Return [answer g0; answer g1; answer g2; answer g0]).
Proof.
  intros Hdet Hd bank n Hbank Hle Hcons. split.
  - destruct (cycle_from cat dflt k w m Hdet Hd Hbank Hle Hcons) as
      (replies & w' & Hrun & Hlen & Hnth & Hfin).
    fold bank n in Hnth, Hfin.
    assert (Hn : (0 < n)%nat)
      by (unfold n; destruct bank; [done|simpl; lia]).
    exists replies, w'.
    split_and!; [exact Hrun|exact Hlen|exact Hnth| | | |].
    + intros i j. apply window_distinct.
    + intros -> ->. apply list_eq. intros j.
      destruct (decide (j < n)%nat) as [Hj|Hj].
      * rewrite Hnth by done. cbn [plus]. by rewrite Nat.mod_small.
      * rewrite !lookup_ge_None_2; [done|fold n; lia|lia].
    + intros Hone j Hj. rewrite Hnth by done. rewrite Hone.
      by rewrite Nat.mod_1_r.
    + intros Hk. rewrite Hfin. destruct k as [|k']; [lia|].
      by replace (m + S k' - 1)%nat with (m + k')%nat by lia.
  - eexists _, _, _. split; [vm_compute; reflexivity|]. split.
    + repeat (apply NoDup_cons; split;
              [rewrite ?elem_of_cons, elem_of_nil; intros H;
               repeat destruct H as [H|H]; discriminate || done|]).
      apply NoDup_nil_2.
    + vm_compute. reflexivity.
Qed.

(** ** Further properties *)

(** *** When [_choose] raises *)

(** X1. Without a [default] bank [_choose] raises [KeyError] for every
    category, also for one that has a bank of its own, since the
    fallback is looked up before the category is; nothing is written. *)
Theorem choose_missing_default (w : World) (cat : string) :
  responses (self w) !! "default" = None →
  _choose cat w = (Raise (KeyError "default"), w).
Proof.
  intros Hd. unfold _choose. unfold mbind at 1, M_bind. cbn.
  unfold mbind, M_bind, dict_getitem. by rewrite Hd.
Qed.

(** X2. With a [default] bank, a category whose bank is empty makes
    [_choose] raise [IndexError] in either mode, and the consumed set of
    the category is left in the dictionary, empty. *)
Theorem choose_empty_bank (w : World) (cat : string) (dflt : list string) :
  responses (self w) !! "default" = Some dflt →
  default dflt (responses (self w) !! cat) = [] →
  _choose cat w
  = (Raise IndexError, with_used w (<[cat := ∅]> (_used_indexes (self w)))).
Proof.
  intros Hd Hbank. unfold _choose.
  erewrite run_bind by reflexivity.
  erewrite run_bind by (unfold dict_getitem; by rewrite Hd).
  erewrite run_bind by apply used_setdefault_run.
  rewrite Hbank. cbn [length seq filter list_filter].
  erewrite run_bind
    by (erewrite run_bind by apply used_store_run; reflexivity).
  unfold with_used.
  cbn [self random set_used_indexes _used_indexes cfg responses followups
       patterns crisis_pattern priorities].
  rewrite insert_insert_eq.
  destruct (deterministic (cfg (self w))); reflexivity.
Qed.

(** *** No repetition within a cycle, in either mode *)

Lemma unused_bound (n : nat) (old : gset nat) (i : nat) :
  i ∈ unused n old ↔ (i < n)%nat ∧ i ∉ old.
Proof.
  unfold unused. rewrite list_elem_of_filter, elem_of_seq.
  split; intros [? ?]; split; (done || lia).
Qed.

Lemma not_elem_of_add (old : gset nat) (idx i : nat) :
  i ∉ {[idx]} ∪ old ↔ i ≠ idx ∧ i ∉ old.
Proof. rewrite elem_of_union, elem_of_singleton. tauto. Qed.

Lemma unused_fewer (old : gset nat) (idx : nat) (l : list nat) :
  NoDup l → idx ∉ old →
  length (filter (λ i, i ∉ old) l)
  = (length (filter (λ i, i ∉ {[idx]} ∪ old) l)
     + (if bool_decide (idx ∈ l) then 1 else 0))%nat.
Proof.
  intros Hnd Hidx. induction l as [|x l IH]; [done|].
  apply NoDup_cons in Hnd as [Hx Hnd]. specialize (IH Hnd).
  destruct (decide (x = idx)) as [->|Hne].
  - rewrite (filter_cons_True (λ i, i ∉ old)) by done.
    rewrite (filter_cons_False (λ i, i ∉ {[idx]} ∪ old))
      by (rewrite not_elem_of_add; intros [H _]; by apply H).
    rewrite bool_decide_eq_true_2 by (by left).
    rewrite bool_decide_eq_false_2 in IH by done. cbn [length]. lia.
  - assert (Hb : bool_decide (idx ∈ x :: l) = bool_decide (idx ∈ l)).
    { apply bool_decide_ext. rewrite elem_of_cons.
      split; [intros [Heq|?]; [by subst|done]|by right]. }
    rewrite Hb. destruct (decide (x ∈ old)) as [Hin|Hout].
    + rewrite (filter_cons_False (λ i, i ∉ old)) by (intros H; by apply H).
      rewrite (filter_cons_False (λ i, i ∉ {[idx]} ∪ old))
        by (rewrite not_elem_of_add; intros [_ H]; by apply H).
      exact IH.
    + rewrite (filter_cons_True (λ i, i ∉ old)) by done.
      rewrite (filter_cons_True (λ i, i ∉ {[idx]} ∪ old))
        by (by rewrite not_elem_of_add).
      cbn [length]. lia.
Qed.

Lemma unused_after_pick (n : nat) (old : gset nat) (idx : nat) :
  idx ∈ unused n old →
  length (unused n old) = S (length (unused n ({[idx]} ∪ old))).
Proof.
  intros [Hlt Hno]%unused_bound. unfold unused.
  rewrite (unused_fewer old idx (seq 0 n) (NoDup_seq 0 n) Hno).
  rewrite bool_decide_eq_true_2 by (apply elem_of_seq; lia). lia.
Qed.

(** A selection while some index is unused picks an unused one and adds
    it to the consumed set. *)
Lemma choose_unused (w : World) (cat : string) (dflt : list string) :
  responses (self w) !! "default" = Some dflt →
  let bank := default dflt (responses (self w) !! cat) in
  let old := consumed (self w) cat in
  unused (length bank) old ≠ [] →
  ∃ idx reply w',
    _choose cat w = (Return reply, w')
    ∧ idx ∈ unused (length bank) old
    ∧ bank !! idx = Some reply
    ∧ consumed (self w') cat = {[idx]} ∪ old
    ∧ responses (self w') = responses (self w).
Proof.
  intros Hd bank old Hun.
  assert (Hbank : bank ≠ []).
  { intros Hnil. apply Hun. unfold unused. by rewrite Hnil. }
  destruct (choose_spec w cat dflt Hd Hbank)
    as (idx & reply & r' & Hrun & Hin & Hreply & _).
  fold bank old in Hrun, Hin, Hreply.
  unfold candidates, kept in Hrun, Hin.
  destruct (unused (length bank) old) as [|i0 l] eqn:Hu; [done|].
  eexists idx, reply, _. split; [exact Hrun|].
  split_and!; [exact Hin|exact Hreply| |reflexivity].
  unfold consumed. cbn [self set_used_indexes _used_indexes].
  by rewrite lookup_insert_eq.
Qed.

(** X3. In either mode, as long as [k] does not exceed the number of
    unused indices of a category, [k] selections in a row return entries
    at [k] different indices, none of them consumed before, and the
    consumed set grows by exactly these indices; when [k] is that number
    every index of the bank is consumed afterwards. *)
Theorem choose_no_repeat (cat : string) (dflt : list string) (k : nat) :
  ∀ w : World,
  responses (self w) !! "default" = Some dflt →
  let bank := default dflt (responses (self w) !! cat) in
  let old := consumed (self w) cat in
  (k ≤ length (unused (length bank) old))%nat →
  ∃ idxs replies w',
    repeat_call (_choose cat) k w = (Return replies, w')
    ∧ length idxs = k
    ∧ NoDup idxs
    ∧ (∀ i, i ∈ idxs → (i < length bank)%nat ∧ i ∉ old)
    ∧ Forall2 (λ i reply, bank !! i = Some reply) idxs replies
    ∧ consumed (self w') cat = list_to_set idxs ∪ old
    ∧ (k = length (unused (length bank) old) →
       ∀ i, (i < length bank)%nat → i ∈ consumed (self w') cat).
Proof.
  induction k as [|k IH]; intros w Hd bank old Hk.
  - exists [], [], w. cbn [repeat_call].
    split_and!; [reflexivity|reflexivity|apply NoDup_nil_2| |constructor| |].
    + intros i Hi. by apply elem_of_nil in Hi.
    + cbn. by rewrite union_empty_l_L.
    + intros Hz i Hi. symmetry in Hz. apply length_zero_iff_nil in Hz.
      destruct (decide (i ∈ old)) as [|Hno]; [done|].
      exfalso. apply (filter_nil_not_elem_of _ _ i Hz Hno).
      apply elem_of_seq. lia.
  - assert (Hun : unused (length bank) old ≠ []).
    { intros Hnil. rewrite Hnil in Hk. cbn in Hk. lia. }
    destruct (choose_unused w cat dflt Hd Hun)
      as (idx & reply & w1 & Hrun & Hin & Hreply & Hcons & Hresp).
    fold bank old in Hin, Hreply, Hcons.
    pose proof (unused_after_pick _ _ _ Hin) as Hlen.
    destruct (IH w1) as (idxs & replies & w' & Hrest & Hl & Hnd & Hfresh
                         & Hall & Hfin & Hfull).
    { by rewrite Hresp. }
    { rewrite Hresp. fold bank. rewrite Hcons. lia. }
    rewrite Hresp in Hfresh, Hall, Hfull. fold bank in Hfresh, Hall, Hfull.
    rewrite Hcons in Hfresh, Hfin, Hfull.
    apply unused_bound in Hin as [Hlt Hno].
    exists (idx :: idxs), (reply :: replies), w'. split_and!.
    + cbn [repeat_call]. erewrite run_bind by exact Hrun.
      erewrite run_bind by exact Hrest. reflexivity.
    + cbn. by rewrite Hl.
    + apply NoDup_cons. split; [|exact Hnd].
      intros Hi. destruct (Hfresh idx Hi) as [_ Hn].
      apply not_elem_of_add in Hn as [Hn _]. done.
    + intros i [->|Hi]%elem_of_cons; [done|].
      destruct (Hfresh i Hi) as [? Hn].
      apply not_elem_of_add in Hn as [_ Hn]. done.
    + by constructor.
    + rewrite Hfin. cbn [list_to_set]. by rewrite (assoc_L (∪)), (comm_L (∪) _ {[idx]}).
    + intros Hfullk. apply Hfull. lia.
Qed.

(** *** Deterministic mode and the generator *)

Lemma gf_ret {A} (a : A) : generator_free (mret a).
Proof. intros b r1 r2 _. by exists (Return a), b. Qed.

Lemma gf_raise {A} (e : exn) : generator_free (raise (A:=A) e).
Proof. intros b r1 r2 _. by exists (Raise e), b. Qed.

Lemma gf_bind {A B} (m : M A) (k : A → M B) :
  generator_free m → (∀ a, generator_free (k a)) → generator_free (m ≫= k).
Proof.
  intros Hm Hk b r1 r2 Hdet.
  destruct (Hm b r1 r2 Hdet) as (o & b1 & H1 & H2 & Hcfg).
  unfold mbind, M_bind. rewrite H1, H2. destruct o as [a|e].
  - destruct (Hk a b1 r1 r2) as (o' & b' & H1' & H2' & Hcfg').
    { by rewrite Hcfg. }
    exists o', b'. split_and!; [done|done|congruence].
  - by exists (Raise e), b1.
Qed.

(** After [get_self] the continuation runs on an object whose mode is
    known. *)
Lemma gf_bind_self {B} (k : GriefSupportBot → M B) :
  (∀ b, deterministic (cfg b) = true → generator_free (k b)) →
  generator_free (get_self ≫= k).
Proof.
  intros Hk b r1 r2 Hdet.
  destruct (Hk b Hdet b r1 r2 Hdet) as (o & b' & H1 & H2 & Hcfg).
  by exists o, b'.
Qed.

Lemma gf_dict_getitem {V} (d : gmap string V) (key : string) :
  generator_free (dict_getitem d key).
Proof.
  unfold dict_getitem. destruct (d !! key); [apply gf_ret|apply gf_raise].
Qed.

Lemma gf_list_getitem {A} (l : list A) (i : nat) :
  generator_free (list_getitem l i).
Proof.
  unfold list_getitem. destruct (l !! i); [apply gf_ret|apply gf_raise].
Qed.

Lemma gf_used_store (cat : string) (used : gset nat) :
  generator_free (used_store cat used).
Proof. intros b r1 r2 _. by eexists (Return tt), _. Qed.

Lemma gf_used_setdefault (cat : string) :
  generator_free (used_setdefault cat).
Proof.
  unfold used_setdefault. apply gf_bind_self. intros b _.
  destruct (_used_indexes b !! cat); [apply gf_ret|].
  apply gf_bind; [apply gf_used_store|intros _; apply gf_ret].
Qed.

Lemma gf_choose (cat : string) : generator_free (_choose cat).
Proof.
  unfold _choose. apply gf_bind_self. intros b Hdet.
  apply gf_bind; [apply gf_dict_getitem|intros dflt].
  apply gf_bind; [apply gf_used_setdefault|intros used].
  apply gf_bind.
  { destruct (filter _ _); [|apply gf_ret].
    apply gf_bind; [apply gf_used_store|intros _; apply gf_ret]. }
  intros [used' choices]. rewrite Hdet.
  apply gf_bind; [apply gf_list_getitem|intros idx].
  apply gf_bind; [apply gf_used_store|intros _; apply gf_list_getitem].
Qed.

Lemma gf_choose_followup (cat : string) : generator_free (_choose_followup cat).
Proof.
  unfold _choose_followup. apply gf_bind_self. intros b Hdet.
  destruct (followups b !! cat) as [[|f bank]|]; [apply gf_ret| |apply gf_ret].
  rewrite Hdet. apply gf_list_getitem.
Qed.

Lemma gf_suggestion (message : list N) :
  generator_free (_get_self_care_suggestion message).
Proof.
  unfold _get_self_care_suggestion. cbn zeta.
  apply gf_bind; [apply gf_dict_getitem|intros recs].
  apply gf_bind_self. intros b Hdet. rewrite Hdet.
  apply gf_bind; [apply gf_list_getitem|intros suggestion; apply gf_ret].
Qed.

Lemma gf_get_response (message : pyval) : generator_free (get_response message).
Proof.
  unfold get_response.
  apply gf_bind.
  { unfold str_strip. destruct (py_or _ _); (apply gf_ret || apply gf_raise). }
  intros text. destruct (bool_decide (text = [])); [apply gf_ret|].
  apply gf_bind_self. intros b Hdet.
  destruct (Pattern_search _ _).
  { apply gf_bind; [apply gf_choose|intros reply; apply gf_ret]. }
  cbn zeta. destruct (_explicit_help_request text).
  { apply gf_bind; [apply gf_suggestion|intros s; apply gf_ret]. }
  apply gf_bind; [apply gf_choose|intros base].
  apply gf_bind; [apply gf_choose_followup|intros fu; apply gf_ret].
Qed.

(** X4. In deterministic mode a call takes nothing from the generator,
    whatever the tables, the usage state and the argument are: the
    outcome (answer or exception) and the object left behind are the
    same for any two states of the generator, and the generator is
    handed back in the state it was in. *)
Theorem deterministic_ignores_generator (b : GriefSupportBot)
    (message : pyval) (r1 r2 : RandomState) :
  deterministic (cfg b) = true →
  ∃ o b',
    get_response message {| self := b; random := r1 |}
    = (o, {| self := b'; random := r1 |})
    ∧ get_response message {| self := b; random := r2 |}
      = (o, {| self := b'; random := r2 |}).
Proof.
  intros Hdet.
  destruct (gf_get_response message b r1 r2 Hdet) as (o & b' & H1 & H2 & _).
  by exists o, b'.
Qed.

(** *** Stripping *)

Lemma lstrip_head (s : list N) (c : N) (t : list N) :
  lstrip s = c :: t → Py_UNICODE_ISSPACE c = false.
Proof.
  induction s as [|x s IH]; cbn; [done|].
  destruct (Py_UNICODE_ISSPACE x) eqn:Hx; [exact IH|].
  intros [= <- _]. exact Hx.
Qed.

Lemma lstrip_unchanged (c : N) (t : list N) :
  Py_UNICODE_ISSPACE c = false → lstrip (c :: t) = c :: t.
Proof. intros Hc. cbn. by rewrite Hc. Qed.

Lemma lstrip_idempotent (s : list N) : lstrip (lstrip s) = lstrip s.
Proof.
  destruct (lstrip s) as [|c t] eqn:Hs; [done|].
  apply lstrip_unchanged. by eapply lstrip_head.
Qed.

Lemma lstrip_snoc (l : list N) (c : N) :
  Py_UNICODE_ISSPACE c = false → ∃ l', lstrip (l ++ [c]) = l' ++ [c].
Proof.
  intros Hc. induction l as [|x l [l' IH]]; cbn.
  - rewrite Hc. by exists [].
  - destruct (Py_UNICODE_ISSPACE x); [by exists l'|by exists (x :: l)].
Qed.

Lemma rstrip_head (c : N) (t : list N) :
  Py_UNICODE_ISSPACE c = false → ∃ t', rstrip (c :: t) = c :: t'.
Proof.
  intros Hc. unfold rstrip. rewrite reverse_cons.
  destruct (lstrip_snoc (reverse t) c Hc) as [l' ->].
  exists (reverse l'). by rewrite reverse_app.
Qed.

Lemma strip_idempotent (s : list N) : strip (strip s) = strip s.
Proof.
  unfold strip.
  assert (Hl : lstrip (rstrip (lstrip s)) = rstrip (lstrip s)).
  { destruct (lstrip s) as [|c t] eqn:Hs; [done|].
    destruct (rstrip_head c t (lstrip_head _ _ _ Hs)) as [t' ->].
    apply lstrip_unchanged. by eapply lstrip_head. }
  rewrite Hl. unfold rstrip. by rewrite reverse_involutive, lstrip_idempotent.
Qed.

Lemma str_strip_or (message : list N) :
  str_strip (py_or (PyStr message) (PyStr [])) = mret (strip message).
Proof. by destruct message. Qed.

Lemma get_response_strip_eq (w : World) (m1 m2 : list N) :
  strip m1 = strip m2 →
  get_response (PyStr m1) w = get_response (PyStr m2) w.
Proof.
  intros Heq. unfold get_response. by rewrite !str_strip_or, Heq.
Qed.

Lemma get_response_stripped (s : list N) :
  get_response (PyStr (strip s)) = get_response (PyStr s).
Proof.
  unfold get_response. by rewrite !str_strip_or, strip_idempotent.
Qed.

(** X5. White space around a message changes nothing: the call on the
    stripped message has the outcome and leaves the world of the call on
    the message itself, for any object. *)
Theorem surrounding_whitespace_ignored (w : World) (message : list N) :
  get_response (PyStr (strip message)) w = get_response (PyStr message) w.
Proof. apply get_response_strip_eq, strip_idempotent. Qed.

(** *** Arguments that are not strings *)



(** *** Answers to strings, on an object built by [__init__] *)

Lemma initial_replies_nonempty :
  map_Forall (λ _ bank, Forall (λ reply, reply ≠ "") bank) initial_responses.
Proof. apply (bool_decide_unpack _). vm_compute. exact I. Qed.

Lemma priorities_have_banks :
  Forall (λ cat, is_Some (initial_responses !! cat)) initial_priorities.
Proof. apply (bool_decide_unpack _). vm_compute. exact I. Qed.

Lemma pattern_keys_nonempty : initial_patterns !! "" = None.
Proof. vm_compute. reflexivity. Qed.

Lemma default_not_pattern : initial_patterns !! "default" = None.
Proof. vm_compute. reflexivity. Qed.

Lemma chosen_reply_nonempty (config : BotConfig)
    (used used' : gmap string (gset nat)) (cat : string) (idx : nat)
    (reply : string) :
  chosen config used cat idx reply used' → reply ≠ "".
Proof.
  intros (dflt & Hd & Hch). cbn zeta in Hch.
  destruct Hch as (_ & _ & Hreply & _).
  apply list_elem_of_lookup_2 in Hreply.
  destruct (initial_responses !! cat) as [bank|] eqn:Hb; cbn in Hreply.
  - pose proof (initial_replies_nonempty _ _ Hb) as Hall.
    rewrite Forall_forall in Hall. by apply Hall.
  - pose proof (initial_replies_nonempty _ _ Hd) as Hall.
    rewrite Forall_forall in Hall. by apply Hall.
Qed.

Lemma append_nonempty (s t : string) : s ≠ "" → s +:+ t ≠ "".
Proof. destruct s; [done|]. intros _. discriminate. Qed.

(** The shape of every answer to a string: no exception, the category
    and the matched terms of the classification, a text that is not
    empty, and a usage state that is unchanged or took one selection
    for the category of the answer. *)
Lemma get_response_shape (config : BotConfig) (used : gmap string (gset nat))
    (r : RandomState) (message : list N) :
  ∃ resp used' r',
    get_response (PyStr message) (world config used r)
    = (Return resp, world config used' r')
    ∧ (category resp, matched_terms resp) = classify (strip message)
    ∧ text resp ≠ ""
    ∧ (used' = used
       ∨ ∃ idx base, chosen config used (category resp) idx base used').
Proof.
  unfold classify.
  destruct (decide (strip message = [])) as [Hs|Hne].
  { rewrite (empty_path _ _ Hs), (bool_decide_eq_true_2 _ Hs).
    exists invitation, used, r. split_and!; [done|done|done|by left]. }
  rewrite (bool_decide_eq_false_2 _ Hne).
  destruct (Pattern_search initial_crisis_pattern (strip message)) eqn:Hc.
  { destruct (crisis_path config used r message Hne Hc)
      as (idx & reply & used' & r' & Hch & Hrun).
    rewrite Hrun. eexists _, used', r'. cbn [category matched_terms text].
    split_and!; [reflexivity|reflexivity| |right; by exists idx, reply].
    by eapply chosen_reply_nonempty. }
  destruct (_explicit_help_request (strip message)) eqn:Hh.
  { destruct (advice_path (world config used r) message Hne Hc Hh)
      as (recs & suggestion & r' & _ & _ & _ & _ & Hrun).
    rewrite Hrun. eexists _, used, r'. cbn [category matched_terms text].
    split_and!; [reflexivity|reflexivity|discriminate|by left]. }
  destruct (reply_path config used r message Hne Hc Hh)
    as (idx & base & fu & used' & r1 & r' & _ & Hch & _ & _ & Hrun).
  rewrite Hrun. clear Hrun. eexists _, used', r'.
  cbn [category matched_terms text].
  split_and!; [reflexivity| | |right; by exists idx, base].
  - by rewrite resolved_bot, match_categories_bot.
  - pose proof (chosen_reply_nonempty _ _ _ _ _ _ Hch) as Hb.
    destruct (bool_decide (fu ≠ "")); [by apply append_nonempty|done].
Qed.

Lemma pick_loop_in (cats : list string) (hits : gset string) :
  pick_loop cats hits ∈ cats ∨ pick_loop cats hits = "default".
Proof.
  induction cats as [|cat cats IH]; cbn; [by right|].
  destruct (bool_decide (cat ∈ hits)); [left; by left|].
  destruct IH as [?|?]; [left; by right|by right].
Qed.

Lemma classify_category (text : list N) :
  (classify text).1 ∈ initial_priorities.
Proof.
  unfold classify.
  assert (Hd : "default" ∈ initial_priorities)
    by (apply (bool_decide_unpack _); vm_compute; exact I).
  assert (Hc : "crisis" ∈ initial_priorities)
    by (apply (bool_decide_unpack _); vm_compute; exact I).
  assert (Hs : "self_care" ∈ initial_priorities)
    by (apply (bool_decide_unpack _); vm_compute; exact I).
  destruct (bool_decide (text = [])); [exact Hd|].
  destruct (Pattern_search _ _); [exact Hc|].
  destruct (_explicit_help_request _); [exact Hs|].
  cbn [fst]. unfold resolved.
  generalize (_match_categories (new_bot BotConfig_default) text).
  intros hits. destruct (bool_decide (hits ≠ ∅)); [|exact Hd].
  unfold _pick_by_priority. cbn [priorities new_bot].
  destruct (pick_loop_in initial_priorities hits) as [?| ->]; done.
Qed.

(** X7. On an object built by [__init__], in either mode and from any
    usage state, a call with a string never raises: it returns an
    answer whose text is not empty and whose category is one of the
    thirteen of the priority list, and leaves an object with the same
    tables and configuration. *)
Theorem string_message_answered (config : BotConfig)
    (used : gmap string (gset nat)) (r : RandomState) (message : list N) :
  ∃ resp used' r',
    get_response (PyStr message) (world config used r)
    = (Return resp, world config used' r')
    ∧ text resp ≠ ""
    ∧ category resp ∈ initial_priorities.
Proof.
  destruct (get_response_shape config used r message)
    as (resp & used' & r' & Hrun & Hcl & Htext & _).
  exists resp, used', r'. split_and!; [exact Hrun|exact Htext|].
  pose proof (classify_category (strip message)) as Hcat.
  by rewrite <-Hcl in Hcat.
Qed.

Lemma join_sorted_nonempty (hits : gset string) :
  hits ≠ ∅ → "" ∉ hits → join_sorted hits ≠ "".
Proof.
  intros Hne Hno. unfold join_sorted.
  pose proof (merge_sort_Permutation String.le (elements hits)) as Hperm.
  destruct (merge_sort String.le (elements hits)) as [|x rest] eqn:Hl.
  - apply Permutation_nil_l in Hperm. symmetry in Hperm.
    apply elements_empty_inv in Hperm. by apply leibniz_equiv in Hperm.
  - assert (Hx : x ∈ hits).
    { apply elem_of_elements. rewrite <-Hperm. by left. }
    assert (Hxe : x ≠ "") by (intros ->; done).
    cbn [String.concat]. destruct rest; [done|].
    by apply append_nonempty.
Qed.

Lemma classify_default (text : list N) :
  ((classify text).1 = "default" ↔ (classify text).2 = "")
  ∧ ((classify text).2 = ""
     ↔ text = []
       ∨ (Pattern_search initial_crisis_pattern text = false
          ∧ _explicit_help_request text = false
          ∧ ∀ cat, ¬ matched text cat)).
Proof.
  unfold classify.
  destruct (decide (text = [])) as [Ht|Ht].
  { rewrite (bool_decide_eq_true_2 _ Ht). cbn. split; [done|].
    split; [by left|done]. }
  rewrite (bool_decide_eq_false_2 _ Ht).
  destruct (Pattern_search initial_crisis_pattern text) eqn:Hc.
  { cbn. split; [done|]. split; [done|]. intros [?|[? _]]; done. }
  destruct (_explicit_help_request text) eqn:Hh.
  { cbn. split; [done|]. split; [done|]. intros [?|(_ & ? & _)]; done. }
  cbn [fst snd]. unfold resolved, _pick_by_priority.
  cbn [priorities new_bot].
  assert (Hspec : ∀ cat, cat ∈ _match_categories (new_bot BotConfig_default) text
                         ↔ matched text cat)
    by (intros; apply match_categories_spec).
  generalize dependent (_match_categories (new_bot BotConfig_default) text).
  intros hits Hspec.
  destruct (decide (hits = ∅)) as [->|Hne].
  { rewrite bool_decide_eq_false_2 by (intros H; by apply H).
    split; [done|]. split; [|done]. intros _. right.
    split_and!; [done|done|]. intros cat Hm%Hspec.
    by apply not_elem_of_empty in Hm. }
  rewrite (bool_decide_eq_true_2 _ Hne).
  assert (Hno_default : "default" ∉ hits).
  { intros (pat & Hpat & _)%Hspec. by rewrite default_not_pattern in Hpat. }
  assert (Hno_empty : "" ∉ hits).
  { intros (pat & Hpat & _)%Hspec. by rewrite pattern_keys_nonempty in Hpat. }
  pose proof (join_sorted_nonempty hits Hne Hno_empty) as Hjoin.
  destruct (set_choose_L hits Hne) as [cat Hcat].
  destruct (pick_loop_first initial_priorities hits)
    as (_ & _ & _ & Hpick & _).
  { exists cat. split; [|done]. apply matched_prioritised with text.
    by apply Hspec. }
  split.
  - split; [intros Hd; by rewrite Hd in Hpick|done].
  - split; [done|]. intros [?|(_ & _ & Hnone)]; [done|].
    exfalso. apply (Hnone cat). by apply Hspec.
Qed.

(** X8. The answer to a string has category [default] exactly when its
    matched terms are empty, and that is exactly when nothing is left of
    the message after stripping, or the text has no crisis language, no
    request for advice and no category pattern that matches. *)
Theorem default_iff_unmatched (config : BotConfig)
    (used : gmap string (gset nat)) (r : RandomState) (message : list N) :
  ∃ resp w',
    get_response (PyStr message) (world config used r) = (Return resp, w')
    ∧ (category resp = "default" ↔ matched_terms resp = "")
    ∧ (matched_terms resp = ""
       ↔ strip message = []
         ∨ (Pattern_search initial_crisis_pattern (strip message) = false
            ∧ _explicit_help_request (strip message) = false
            ∧ ∀ cat, ¬ matched (strip message) cat)).
Proof.
  destruct (get_response_shape config used r message)
    as (resp & used' & r' & Hrun & Hcl & _).
  exists resp, (world config used' r'). split; [exact Hrun|].
  pose proof (classify_default (strip message)) as Hd.
  rewrite <-Hcl in Hd. exact Hd.
Qed.

(** *** The usage states that occur *)

Lemma chosen_usage_ok (config : BotConfig)
    (used used' : gmap string (gset nat)) (cat : string) (idx : nat)
    (base : string) :
  cat ∈ initial_priorities →
  chosen config used cat idx base used' →
  usage_ok used → usage_ok used'.
Proof.
  intros Hcat (dflt & Hd & Hch) Hok. cbn zeta in Hch.
  destruct Hch as (-> & Hin & _ & _).
  pose proof priorities_have_banks as Hbanks.
  rewrite Forall_forall in Hbanks. destruct (Hbanks cat Hcat) as [bank Hbank].
  rewrite Hbank in Hin. cbn [default from_option id] in Hin.
  destruct (selection_cases _ _ _ Hin) as [Hlt Hkept].
  intros cat' S'. destruct (decide (cat' = cat)) as [->|Hne].
  - rewrite lookup_insert_eq. intros Heq. apply (inj Some) in Heq.
    subst S'. rewrite Hbank.
    cbn [default from_option id].
    split_and!; [exact Hcat| |].
    + intros Hempty. assert (Hi : idx ∈ ({[idx]} ∪ kept (length bank)
                                         (default ∅ (used !! cat)) : gset nat))
        by (apply elem_of_union; left; by apply elem_of_singleton).
      rewrite Hempty in Hi. exact (not_elem_of_empty _ Hi).
    + intros i [->%elem_of_singleton|Hi]%elem_of_union; [exact Hlt|].
      destruct Hkept as [[_ Hk]|[_ Hk]]; rewrite Hk in Hi.
      * destruct (used !! cat) as [S|] eqn:Hu; cbn in Hi.
        -- destruct (Hok cat S Hu) as (_ & _ & Hb). rewrite Hbank in Hb.
           by apply Hb.
        -- destruct (not_elem_of_empty (C:=gset nat) _ Hi).
      * destruct (not_elem_of_empty (C:=gset nat) _ Hi).
  - rewrite lookup_insert_ne by done. apply Hok.
Qed.

Lemma get_response_usage_ok (config : BotConfig)
    (used : gmap string (gset nat)) (r : RandomState) (message : list N) :
  usage_ok used →
  ∃ resp used' r',
    get_response (PyStr message) (world config used r)
    = (Return resp, world config used' r')
    ∧ usage_ok used'.
Proof.
  intros Hok.
  destruct (get_response_shape config used r message)
    as (resp & used' & r' & Hrun & Hcl & _ & Hused).
  exists resp, used', r'. split; [exact Hrun|].
  destruct Hused as [->|(idx & base & Hch)]; [exact Hok|].
  apply (chosen_usage_ok config used used' (category resp) idx base);
    [|exact Hch|exact Hok].
  pose proof (classify_category (strip message)) as Hcat.
  by rewrite <-Hcl in Hcat.
Qed.

(** X9. After [__init__] and any run of calls with strings, in either
    mode and whatever the world was before, every entry of the usage
    state belongs to a category of the priority list and is a non-empty
    set of valid indices of that category's reply bank. *)
Theorem usage_state_invariant (config : option BotConfig) (w : World)
    (messages : list (list N)) :
  ∃ resps used' r',
    (__init__ config ≫= λ _, get_responses messages) w
    = (Return resps, world (default BotConfig_default config) used' r')
    ∧ usage_ok used'.
Proof.
  assert (Hgen : ∀ cfg0 used r0, usage_ok used →
    ∃ resps used' r',
      get_responses messages (world cfg0 used r0)
      = (Return resps, world cfg0 used' r') ∧ usage_ok used').
  { intros cfg0. induction messages as [|message rest IH]; intros used r0 Hok.
    - by exists [], used, r0.
    - destruct (get_response_usage_ok cfg0 used r0 message Hok)
        as (resp & used1 & r1 & Hrun & Hok1).
      destruct (IH used1 r1 Hok1) as (resps & used' & r' & Hrest & Hok').
      exists (resp :: resps), used', r'. split; [|exact Hok'].
      cbn [get_responses]. erewrite run_bind by exact Hrun.
      erewrite run_bind by exact Hrest. reflexivity. }
  destruct (init_world config w) as [r0 Hinit].
  destruct (Hgen (default BotConfig_default config) ∅ r0)
    as (resps & used' & r' & Hrun & Hok).
  { intros cat S Hlook. by rewrite lookup_empty in Hlook. }
  exists resps, used', r'. split; [|exact Hok].
  erewrite run_bind by exact Hinit. exact Hrun.
Qed.

(** *** The handlers of [app.py] *)

Lemma json_or_falsy (a b : json) : json_truthy a = false → json_or a b = b.
Proof. intros H. unfold json_or. by rewrite H. Qed.

Lemma json_or_truthy (a b : json) : json_truthy a = true → json_or a b = a.
Proof. intros H. unfold json_or. by rewrite H. Qed.

Lemma json_or_object (fields : list (string * json)) :
  json_or (JObj fields) (JObj []) = JObj fields.
Proof. by destruct fields. Qed.

Lemma blank_strip (v : json) :
  blank v = true → json_strip (json_or v (JStr [])) = mret [].
Proof.
  unfold json_or. destruct v as [|[]|z|s|[|]|[|]]; try done.
  - cbn. destruct (z =? 0)%Z; done.
  - cbn [blank]. intros Hs%bool_decide_eq_true.
    destruct (json_truthy (JStr s)); cbn; by rewrite ?Hs.
Qed.

(** X10. [api_chat] answers 400 with the error [Empty message], and
    does not call the bot, when the request has no JSON body or a falsy
    one, or when the body is an object whose [message] is missing,
    falsy, or a string of white space only. *)
Theorem api_chat_rejects_blank (w : World) (request_json : json) :
  json_truthy request_json = false
  ∨ (∃ fields, request_json = JObj fields
               ∧ blank (default JNull (fields_lookup fields "message")) = true) →
  api_chat request_json w = (Return (JsonError "Empty message", 400%nat), w).
Proof.
  intros [Hf|(fields & -> & Hb)]; unfold api_chat.
  - rewrite (json_or_falsy _ _ Hf). cbn zeta.
    erewrite run_bind by reflexivity. reflexivity.
  - rewrite json_or_object. cbn zeta.
    erewrite run_bind by reflexivity.
    rewrite (blank_strip _ Hb).
    erewrite run_bind by reflexivity. reflexivity.
Qed.

Lemma lookup_some_object (fields : list (string * json)) (key : string)
    (v : json) :
  fields_lookup fields key = Some v → json_or (JObj fields) (JObj []) = JObj fields.
Proof. intros _. apply json_or_object. Qed.

Lemma string_message_strip (s : list N) :
  strip s ≠ [] → json_strip (json_or (JStr s) (JStr [])) = mret (strip s).
Proof. intros Hne. destruct s; [done|]. reflexivity. Qed.

(** X11. For a body whose [message] is a string with text left after
    stripping, [api_chat] on the module-level bot answers 200 with
    exactly the answer of the bot to that string, and leaves the bot as
    that call leaves it; no such request ends in an exception. *)
Theorem api_chat_answers (used : gmap string (gset nat)) (r : RandomState)
    (fields : list (string * json)) (s : list N) :
  fields_lookup fields "message" = Some (JStr s) →
  strip s ≠ [] →
  ∃ resp used' r',
    get_response (PyStr s) (world grief_bot_config used r)
    = (Return resp, world grief_bot_config used' r')
    ∧ api_chat (JObj fields) (world grief_bot_config used r)
      = (Return (JsonAnswer resp, 200%nat), world grief_bot_config used' r').
Proof.
  intros Hlook Hne.
  destruct (get_response_shape grief_bot_config used r s)
    as (resp & used' & r' & Hrun & _).
  exists resp, used', r'. split; [exact Hrun|].
  unfold api_chat. rewrite json_or_object. cbn zeta.
  erewrite run_bind by reflexivity.
  rewrite Hlook. cbn [default from_option id].
  rewrite (string_message_strip s Hne).
  erewrite run_bind by reflexivity.
  rewrite (bool_decide_eq_false_2 _ Hne).
  rewrite (get_response_stripped s).
  erewrite run_bind by exact Hrun. reflexivity.
Qed.

(** X12. [api_chat] raises [AttributeError], without calling the bot,
    when the body is a truthy JSON value that is not an object, or an
    object whose [message] is truthy and not a string. *)
Theorem api_chat_raises (w : World) (request_json : json) :
  (json_truthy request_json = true ∧ ∀ fields, request_json ≠ JObj fields)
  ∨ (∃ fields v, request_json = JObj fields
                 ∧ fields_lookup fields "message" = Some v
                 ∧ json_truthy v = true
                 ∧ ∀ s, v ≠ JStr s) →
  api_chat request_json w = (Raise AttributeError, w).
Proof.
  intros [[Ht Hno]|(fields & v & -> & Hlook & Ht & Hns)]; unfold api_chat.
  - rewrite (json_or_truthy _ _ Ht). cbn zeta.
    destruct request_json as [| | | | |fields]; try reflexivity.
    by destruct (Hno fields).
  - rewrite json_or_object. cbn zeta.
    erewrite run_bind by reflexivity.
    rewrite Hlook. cbn [default from_option id].
    rewrite (json_or_truthy _ _ Ht).
    destruct v as [| | |s| |]; try reflexivity. by destruct (Hns s).
Qed.

(** X13. [handle_user_message] emits nothing and does not call the bot
    when the user is not authenticated, whatever the payload is, and for
    an authenticated user when the payload is falsy, or an object whose
    [message] is missing or a string of white space only. *)
Theorem handler_silent (w : World) (is_authenticated : bool) (data : json) :
  is_authenticated = false
  ∨ json_truthy data = false
  ∨ (∃ fields, data = JObj fields
               ∧ (fields_lookup fields "message" = None
                  ∨ ∃ s, fields_lookup fields "message" = Some (JStr s)
                         ∧ strip s = [])) →
  handle_user_message is_authenticated data w = (Return [], w).
Proof.
  intros [->|H]; [reflexivity|].
  unfold handle_user_message. destruct is_authenticated; [|reflexivity].
  cbn [negb]. destruct H as [Hf|(fields & -> & Hm)].
  - rewrite (json_or_falsy _ _ Hf). erewrite run_bind by reflexivity.
    reflexivity.
  - rewrite json_or_object. erewrite run_bind by reflexivity.
    destruct Hm as [->|(s & -> & Hs)]; cbn [default from_option id].
    + erewrite run_bind by reflexivity. reflexivity.
    + erewrite run_bind by reflexivity.
      by rewrite (bool_decide_eq_true_2 _ Hs).
Qed.

(** X14. For an authenticated user and a payload whose [message] is a
    string with text left after stripping, [handle_user_message] emits
    exactly one [bot_message] event, carrying the text and the category
    of the answer of the module-level bot to that string, and leaves the
    bot as that call leaves it. *)
Theorem handler_answers (used : gmap string (gset nat)) (r : RandomState)
    (fields : list (string * json)) (s : list N) :
  fields_lookup fields "message" = Some (JStr s) →
  strip s ≠ [] →
  ∃ resp used' r',
    get_response (PyStr s) (world grief_bot_config used r)
    = (Return resp, world grief_bot_config used' r')
    ∧ handle_user_message true (JObj fields) (world grief_bot_config used r)
      = (Return [{| event := "bot_message";
                    emitted_user := "Grief Support Bot";
                    emitted_message := text resp;
                    emitted_category := category resp |}],
         world grief_bot_config used' r').
Proof.
  intros Hlook Hne.
  destruct (get_response_shape grief_bot_config used r s)
    as (resp & used' & r' & Hrun & _).
  exists resp, used', r'. split; [exact Hrun|].
  unfold handle_user_message. cbn [negb]. rewrite json_or_object.
  erewrite run_bind by reflexivity.
  rewrite Hlook. cbn [default from_option id].
  erewrite run_bind by reflexivity.
  rewrite (bool_decide_eq_false_2 _ Hne).
  rewrite (get_response_stripped s).
  erewrite run_bind by exact Hrun. reflexivity.
Qed.

(** X15. The two handlers differ on a [message] that is present, falsy
    and not a string (JSON [null], [false], [0], an empty list or
    object): the socket handler, which gives [get] a default but has no
    [or], raises [AttributeError] for an authenticated user, while the
    REST handler answers 400. *)
Theorem handlers_differ_on_null (w : World) (fields : list (string * json))
    (v : json) :
  fields_lookup fields "message" = Some v →
  json_truthy v = false →
  (∀ s, v ≠ JStr s) →
  handle_user_message true (JObj fields) w = (Raise AttributeError, w)
  ∧ api_chat (JObj fields) w
    = (Return (JsonError "Empty message", 400%nat), w).
Proof.
  intros Hlook Hf Hns. split.
  - unfold handle_user_message. cbn [negb]. rewrite json_or_object.
    erewrite run_bind by reflexivity.
    rewrite Hlook. cbn [default from_option id].
    destruct v as [| | |s| |]; try reflexivity. by destruct (Hns s).
  - unfold api_chat. rewrite json_or_object. cbn zeta.
    erewrite run_bind by reflexivity.
    rewrite Hlook. cbn [default from_option id].
    assert (Hb : blank v = true).
    { destruct v as [| | |s| |]; cbn [blank]; rewrite ?Hf; try done.
      by destruct (Hns s). }
    rewrite (blank_strip _ Hb).
    erewrite run_bind by reflexivity. reflexivity.
Qed.

(** *** Letter case *)

Lemma upper_forall (P : N → bool) :
  forallb P (N.of_nat <$> seq 65 26) = true →
  ∀ x, ascii_isupper x = true → P x = true.
Proof.
  intros Hall x Hx. rewrite forallb_forall in Hall. apply Hall.
  apply list_elem_of_In.
  unfold ascii_isupper in Hx. apply andb_true_iff in Hx as [H1 H2].
  apply N.leb_le in H1, H2.
  apply list_elem_of_fmap. exists (N.to_nat x).
  split; [by rewrite N2Nat.id|]. apply elem_of_seq. lia.
Qed.

Lemma upper_forall_eq (f g : N → bool) :
  forallb (λ x, Bool.eqb (f x) (g x)) (N.of_nat <$> seq 65 26) = true →
  ∀ x, ascii_isupper x = true → f x = g x.
Proof.
  intros Hall x Hx. apply Bool.eqb_prop.
  exact (upper_forall (λ x, Bool.eqb (f x) (g x)) Hall x Hx).
Qed.

Lemma tolower_not_upper (x : N) :
  ascii_isupper x = false → ascii_tolower x = x.
Proof. intros H. unfold ascii_tolower. by rewrite H. Qed.

Lemma isspace_tolower (x : N) :
  Py_UNICODE_ISSPACE (ascii_tolower x) = Py_UNICODE_ISSPACE x.
Proof.
  destruct (ascii_isupper x) eqn:Hu; [|by rewrite tolower_not_upper].
  revert x Hu. apply upper_forall_eq. vm_compute. reflexivity.
Qed.

Lemma is_word_tolower (x : N) : is_word (ascii_tolower x) = is_word x.
Proof.
  destruct (ascii_isupper x) eqn:Hu; [|by rewrite tolower_not_upper].
  revert x Hu. apply upper_forall_eq. vm_compute. reflexivity.
Qed.

Lemma sre_lower_tolower (x : N) : sre_lower (ascii_tolower x) = sre_lower x.
Proof.
  destruct (ascii_isupper x) eqn:Hu; [|by rewrite tolower_not_upper].
  apply N.eqb_eq. revert x Hu.
  apply (upper_forall (λ x, (sre_lower (ascii_tolower x) =? sre_lower x)%N)).
  vm_compute. reflexivity.
Qed.

Lemma tolower_idempotent (x : N) :
  ascii_tolower (ascii_tolower x) = ascii_tolower x.
Proof.
  destruct (ascii_isupper x) eqn:Hu;
    [|by rewrite (tolower_not_upper x Hu), (tolower_not_upper x Hu)].
  apply N.eqb_eq. revert x Hu.
  apply (upper_forall
           (λ x, (ascii_tolower (ascii_tolower x) =? ascii_tolower x)%N)).
  vm_compute. reflexivity.
Qed.

Lemma tolower_ascii (x : N) :
  (ascii_tolower x <? 128)%N = (x <? 128)%N.
Proof.
  destruct (ascii_isupper x) eqn:Hu; [|by rewrite tolower_not_upper].
  revert x Hu. apply upper_forall_eq. vm_compute. reflexivity.
Qed.

Lemma upper_lower_letter (x : N) :
  ascii_isupper x = true → ascii_islower (ascii_tolower x) = true.
Proof. revert x. apply upper_forall. vm_compute. reflexivity. Qed.

Lemma char_matches_tolower (c x : N) :
  char_matches true c (ascii_tolower x) = char_matches true c x.
Proof.
  unfold char_matches. cbn [andb].
  destruct (ascii_isupper c || ascii_islower c) eqn:Hc.
  - by rewrite sre_lower_tolower.
  - destruct (ascii_isupper x) eqn:Hu; [|by rewrite tolower_not_upper].
    apply orb_false_iff in Hc as [Hcu Hcl].
    rewrite (proj2 (N.eqb_neq _ _)), (proj2 (N.eqb_neq _ _)); [done| |].
    + intros ->. congruence.
    + intros Heq. rewrite <-Heq, (upper_lower_letter x Hu) in Hcl. done.
Qed.

Lemma atom_matches_tolower (a : atom) (x : N) :
  atom_matches true a (ascii_tolower x) = atom_matches true a x.
Proof.
  induction a as [c| |a1 IH1 a2 IH2]; cbn.
  - apply char_matches_tolower.
  - apply isspace_tolower.
  - by rewrite IH1, IH2.
Qed.

(** Under [re.IGNORECASE] a match does not change when ASCII capitals
    in the text, before and after the position, become small
    letters. *)
Lemma re_match_tolower (r : regex) :
  ∀ (prev : option N) (s : list N) (k k' : option N → list N → bool),
    (∀ p t, k p t = k' (ascii_tolower <$> p) (ascii_tolower <$> t)) →
    re_match true r prev s k
    = re_match true r (ascii_tolower <$> prev) (ascii_tolower <$> s) k'.
Proof.
  induction r as [|a|a|r1 IH1 r2 IH2|r1 IH1 r2 IH2|r IH|];
    intros prev s k k' Hk; cbn [re_match].
  - apply Hk.
  - destruct s as [|x s]; [done|]. cbn [fmap list_fmap].
    rewrite atom_matches_tolower. f_equal. apply (Hk (Some x)).
  - induction s as [|x s IHs]; [done|]. cbn [fmap list_fmap match_repeat1].
    rewrite atom_matches_tolower. f_equal. f_equal; [exact IHs|].
    apply (Hk (Some x)).
  - apply IH1. intros p t. by apply IH2.
  - f_equal; [by apply IH1|by apply IH2].
  - f_equal; [by apply IH|apply Hk].
  - f_equal; [|apply Hk]. unfold at_boundary. f_equal. f_equal.
    + destruct s as [|x s]; [done|]. cbn. by rewrite is_word_tolower.
    + destruct prev as [x|]; [|done]. cbn. by rewrite is_word_tolower.
Qed.

Lemma search_from_tolower (r : regex) (s : list N) :
  ∀ prev,
    search_from true r (ascii_tolower <$> prev) (ascii_tolower <$> s)
    = search_from true r prev s.
Proof.
  induction s as [|x s IH]; intros prev; cbn [search_from fmap list_fmap].
  - f_equal. symmetry. by apply re_match_tolower.
  - f_equal; [symmetry; by apply re_match_tolower|]. apply (IH (Some x)).
Qed.

Lemma Pattern_search_tolower (p : Pattern) (s : list N) :
  IGNORECASE p = true →
  Pattern_search p (ascii_tolower <$> s) = Pattern_search p s.
Proof.
  intros Hic. unfold Pattern_search, re_search. rewrite Hic.
  apply (search_from_tolower _ s None).
Qed.

Lemma lstrip_tolower (s : list N) :
  lstrip (ascii_tolower <$> s) = ascii_tolower <$> lstrip s.
Proof.
  induction s as [|x s IH]; [done|]. cbn [fmap list_fmap lstrip].
  rewrite isspace_tolower. by destruct (Py_UNICODE_ISSPACE x).
Qed.

Lemma strip_tolower (s : list N) :
  strip (ascii_tolower <$> s) = ascii_tolower <$> strip s.
Proof.
  unfold strip, rstrip.
  by rewrite lstrip_tolower, <-fmap_reverse, lstrip_tolower, fmap_reverse.
Qed.

Lemma lstrip_Forall (P : N → Prop) (s : list N) :
  Forall P s → Forall P (lstrip s).
Proof.
  induction 1 as [|x s Hx Hs IH]; cbn; [done|].
  destruct (Py_UNICODE_ISSPACE x); [done|by constructor].
Qed.

Lemma strip_Forall (P : N → Prop) (s : list N) :
  Forall P s → Forall P (strip s).
Proof.
  intros H. unfold strip, rstrip.
  by apply Forall_reverse, lstrip_Forall, Forall_reverse, lstrip_Forall.
Qed.

Lemma str_lower_tolower (s : list N) :
  Forall (λ c, (c < 128)%N) s →
  str_lower (ascii_tolower <$> s) = str_lower s.
Proof.
  intros Hascii. unfold str_lower.
  assert (H1 : forallb (λ c, (c <? 128)%N) s = true).
  { apply forallb_forall. intros c Hc%list_elem_of_In.
    rewrite Forall_forall in Hascii. by apply N.ltb_lt, Hascii. }
  assert (H2 : forallb (λ c, (c <? 128)%N) (ascii_tolower <$> s) = true).
  { apply forallb_forall. intros c Hc%list_elem_of_In.
    apply list_elem_of_fmap in Hc as (x & -> & Hx).
    rewrite tolower_ascii. rewrite Forall_forall in Hascii.
    by apply N.ltb_lt, Hascii. }
  rewrite H1, H2. rewrite <-list_fmap_compose.
  apply list_fmap_ext. intros _ x _. apply tolower_idempotent.
Qed.

Lemma initial_patterns_ignorecase :
  map_Forall (λ _ p, IGNORECASE p = true) initial_patterns.
Proof. apply (bool_decide_unpack _). vm_compute. exact I. Qed.

Lemma match_categories_tolower (config : BotConfig)
    (used : gmap string (gset nat)) (text : list N) :
  _match_categories (bot config used) (ascii_tolower <$> text)
  = _match_categories (bot config used) text.
Proof.
  apply set_eq. intros cat. rewrite !match_categories_spec.
  cbn [patterns bot set_used_indexes new_bot].
  split; intros (pat & Hpat & Hs); exists pat; (split; [exact Hpat|]).
  - by rewrite <-(Pattern_search_tolower pat text
                    (initial_patterns_ignorecase _ _ Hpat)).
  - by rewrite (Pattern_search_tolower pat text
                  (initial_patterns_ignorecase _ _ Hpat)).
Qed.

Lemma ret_bind {A B} (a : A) (k : A → M B) (w : World) :
  (mret a ≫= k) w = k a w.
Proof. reflexivity. Qed.

Lemma self_bind {B} (k : GriefSupportBot → M B) (w : World) :
  (get_self ≫= k) w = k (self w) w.
Proof. reflexivity. Qed.

Lemma re_search_tolower (r : regex) (s : list N) :
  re_search r (ascii_tolower <$> s) true = re_search r s true.
Proof. apply (search_from_tolower r s None). Qed.

Lemma get_response_tolower (config : BotConfig)
    (used : gmap string (gset nat)) (r : RandomState) (message : list N) :
  Forall (λ c, (c < 128)%N) message →
  get_response (PyStr (ascii_tolower <$> message)) (world config used r)
  = get_response (PyStr message) (world config used r).
Proof.
  intros Hascii. unfold get_response.
  rewrite !str_strip_or, strip_tolower, !ret_bind. cbn beta.
  pose proof (strip_Forall _ _ Hascii) as Ht.
  generalize dependent (strip message). intros t Ht.
  assert (Hnil : bool_decide (ascii_tolower <$> t = []) = bool_decide (t = [])).
  { apply bool_decide_ext. split; [apply fmap_nil_inv|by intros ->]. }
  rewrite Hnil. destruct (bool_decide (t = [])); [reflexivity|].
  rewrite !self_bind. cbn beta. cbn [self world].
  assert (Hc : Pattern_search (crisis_pattern (bot config used))
                 (ascii_tolower <$> t)
               = Pattern_search (crisis_pattern (bot config used)) t)
    by (by apply Pattern_search_tolower).
  rewrite Hc. destruct (Pattern_search (crisis_pattern (bot config used)) t);
    [reflexivity|].
  cbn zeta. unfold _explicit_help_request. rewrite re_search_tolower.
  destruct (re_search help_request_re t true).
  - unfold _get_self_care_suggestion. by rewrite (str_lower_tolower t Ht).
  - by rewrite match_categories_tolower.
Qed.

(** X16. On an object built by [__init__], the letter case of an ASCII
    message changes nothing: two ASCII messages that are equal once
    their capitals are made small get the same outcome and leave the
    same world, in either mode. *)
Theorem letter_case_ignored (config : BotConfig)
    (used : gmap string (gset nat)) (r : RandomState) (m1 m2 : list N) :
  Forall (λ c, (c < 128)%N) m1 →
  Forall (λ c, (c < 128)%N) m2 →
  ascii_tolower <$> m1 = ascii_tolower <$> m2 →
  get_response (PyStr m1) (world config used r)
  = get_response (PyStr m2) (world config used r).
Proof.
  intros H1 H2 Heq.
  rewrite <-(get_response_tolower config used r m1 H1).
  rewrite <-(get_response_tolower config used r m2 H2).
  by rewrite Heq.
Qed.

(** *** Crisis language anywhere in a message *)

Lemma re_match_extend (ic : bool) (r : regex) :
  boundary_free r = true →
  ∀ (prev prev' : option N) (s post : list N)
    (k k' : option N → list N → bool),
    (∀ p p' t, k p t = true → k' p' (t ++ post) = true) →
    re_match ic r prev s k = true →
    re_match ic r prev' (s ++ post) k' = true.
Proof.
  induction r as [|a|a|r1 IH1 r2 IH2|r1 IH1 r2 IH2|r IH|];
    intros Hbf prev prev' s post k k' Hk; cbn [re_match boundary_free] in *.
  - apply Hk.
  - destruct s as [|x s]; [done|]. cbn [app].
    intros [Ha Hs]%andb_true_iff. rewrite Ha. cbn [andb]. by eapply Hk.
  - clear Hbf. induction s as [|x s IHs]; [done|]. cbn [app match_repeat1].
    intros [Ha Hs]%andb_true_iff. rewrite Ha. cbn [andb].
    apply orb_true_iff in Hs as [Hs|Hs]; apply orb_true_iff.
    + left. by apply IHs.
    + right. by eapply Hk.
  - apply andb_true_iff in Hbf as [Hb1 Hb2].
    apply (IH1 Hb1). intros p p' t. by apply (IH2 Hb2).
  - apply andb_true_iff in Hbf as [Hb1 Hb2].
    intros [H|H]%orb_true_iff; apply orb_true_iff.
    + left. by eapply (IH1 Hb1).
    + right. by eapply (IH2 Hb2).
  - intros [H|H]%orb_true_iff; apply orb_true_iff.
    + left. by eapply (IH Hbf).
    + right. by eapply Hk.
  - done.
Qed.

Lemma search_from_app (ic : bool) (r : regex) (pre s : list N) :
  (∀ prev, re_match ic r prev s (λ _ _, true) = true) →
  ∀ prev, search_from ic r prev (pre ++ s) = true.
Proof.
  intros Hs. induction pre as [|x pre IH]; intros prev.
  - cbn [app]. destruct s; cbn [search_from]; by rewrite Hs.
  - cbn [app search_from]. rewrite IH. apply orb_true_r.
Qed.

(** A pattern without [\b] that matches a text by itself is found in
    every text that contains it. *)
Lemma search_contains (ic : bool) (r : regex) (pre mid post : list N) :
  boundary_free r = true →
  re_match ic r None mid (λ _ _, true) = true →
  re_search r (pre ++ mid ++ post) ic = true.
Proof.
  intros Hbf Hmid. unfold re_search. apply search_from_app.
  intros prev. by apply (re_match_extend ic r Hbf None prev mid post
                           (λ _ _, true)).
Qed.

Lemma lstrip_suffix (a b : list N) (c : N) :
  Py_UNICODE_ISSPACE c = false →
  ∃ p q, a = p ++ q ∧ lstrip (a ++ c :: b) = q ++ c :: b.
Proof.
  intros Hc. induction a as [|x a (p & q & Ha & IH)]; cbn.
  - rewrite Hc. by exists [], [].
  - destruct (Py_UNICODE_ISSPACE x).
    + exists (x :: p), q. split; [by rewrite Ha at 1|exact IH].
    + by exists [], (x :: a).
Qed.

(** Stripping keeps a part of the text that begins and ends with
    characters that are not white space, with an end of what was before
    it and a beginning of what was after it. *)
Lemma strip_infix (pre mid post : list N) (c d : N) :
  head mid = Some c →
  last mid = Some d →
  Py_UNICODE_ISSPACE c = false →
  Py_UNICODE_ISSPACE d = false →
  ∃ pre0 pre' post' post0,
    pre = pre0 ++ pre' ∧ post = post' ++ post0
    ∧ strip (pre ++ mid ++ post) = pre' ++ mid ++ post'.
Proof.
  intros Hhead Hlast Hc Hd.
  destruct mid as [|c' inner]; [done|]. injection Hhead as ->.
  apply last_Some in Hlast as [front Hfront].
  unfold strip.
  destruct (lstrip_suffix pre (inner ++ post) c Hc) as (pre0 & q & Hpre & Hq).
  cbn [app]. rewrite Hq.
  change (q ++ c :: inner ++ post) with (q ++ (c :: inner) ++ post).
  rewrite Hfront. unfold rstrip.
  rewrite !reverse_app. cbn [reverse]. rewrite reverse_singleton.
  rewrite <-!(assoc_L (++)). cbn [app].
  destruct (lstrip_suffix (reverse post) (reverse front ++ reverse q) d Hd)
    as (p0 & p & Hpost & Hp).
  rewrite Hp. rewrite reverse_app, reverse_cons, !reverse_app,
    !reverse_involutive.
  exists pre0, q, (reverse p), (reverse p0). split_and!.
  - exact Hpre.
  - by rewrite <-reverse_app, <-Hpost, reverse_involutive.
  - rewrite <-!(assoc_L (++)). f_equal.
    change (c :: inner ++ reverse p) with ((c :: inner) ++ reverse p).
    by rewrite Hfront, <-(assoc_L (++)).
Qed.

Lemma crisis_pattern_boundary_free :
  boundary_free (pattern initial_crisis_pattern) = true.
Proof. vm_compute. reflexivity. Qed.

Lemma crisis_phrases_match :
  Forall (λ phrase,
            re_match true (pattern initial_crisis_pattern) None (codes phrase)
              (λ _ _, true) = true
            ∧ ∃ c inner d,
                codes phrase = c :: inner
                ∧ last (codes phrase) = Some d
                ∧ Py_UNICODE_ISSPACE c = false
                ∧ Py_UNICODE_ISSPACE d = false)
    crisis_phrases.
Proof.
  unfold crisis_phrases.
  repeat (apply Forall_cons; split;
          [split; [vm_compute; reflexivity|];
           eexists _, _, _; split_and!; vm_compute; reflexivity|]).
  apply Forall_nil_2.
Qed.

(** X17. A message that contains one of the listed crisis phrases
    anywhere, in any mix of ASCII capitals and small letters, whatever
    stands before and after it, is answered with category [crisis] and
    matched terms [crisis], in either mode and from any usage state. *)
Theorem crisis_phrase_detected (config : BotConfig)
    (used : gmap string (gset nat)) (r : RandomState)
    (pre kw post : list N) (phrase : string) :
  phrase ∈ crisis_phrases →
  ascii_tolower <$> kw = codes phrase →
  ∃ resp w',
    get_response (PyStr (pre ++ kw ++ post)) (world config used r)
    = (Return resp, w')
    ∧ category resp = "crisis"
    ∧ matched_terms resp = "crisis".
Proof.
  intros Hphrase Hkw.
  pose proof crisis_phrases_match as Hall. rewrite Forall_forall in Hall.
  destruct (Hall phrase Hphrase)
    as (Hmatch & c & inner & d & Hhead & Hlast & Hc & Hd).
  clear Hall Hphrase. rewrite <-Hkw in Hmatch, Hhead, Hlast. clear Hkw.
  destruct kw as [|x kw']; [done|].
  cbn [fmap list_fmap] in Hhead. injection Hhead as Hx Hinner.
  rewrite fmap_last in Hlast.
  destruct (last (x :: kw')) as [y|] eqn:Hy; [|done].
  cbn in Hlast. injection Hlast as Hyd.
  assert (Hxs : Py_UNICODE_ISSPACE x = false)
    by (by rewrite <-isspace_tolower, Hx).
  assert (Hys : Py_UNICODE_ISSPACE y = false)
    by (by rewrite <-isspace_tolower, Hyd).
  destruct (strip_infix pre (x :: kw') post x y eq_refl Hy Hxs Hys)
    as (_ & pre' & post' & _ & _ & _ & Hstrip).
  assert (Hne : strip (pre ++ (x :: kw') ++ post) ≠ []).
  { rewrite Hstrip. intros Hnil. apply app_eq_nil in Hnil as [_ Hnil].
    by apply app_eq_nil in Hnil as [Hnil _]. }
  assert (Hcrisis : Pattern_search initial_crisis_pattern
                      (strip (pre ++ (x :: kw') ++ post)) = true).
  { rewrite Hstrip.
    rewrite <-(Pattern_search_tolower initial_crisis_pattern) by reflexivity.
    rewrite !fmap_app.
    apply (search_contains true (pattern initial_crisis_pattern));
      [apply crisis_pattern_boundary_free|exact Hmatch]. }
  destruct (crisis_path config used r _ Hne Hcrisis)
    as (idx & reply & used' & r' & _ & Hrun).
  eexists _, _. split; [exact Hrun|]. done.
Qed.

(** *** Matching and priority, for any tables *)

(** X18. For any tables, the hits of [_match_categories] are exactly
    the keys of the pattern table whose pattern finds a match in the
    text; a name that is not a key is never a hit. *)
Theorem match_categories_exact (b : GriefSupportBot) (text : list N)
    (cat : string) :
  (cat ∈ _match_categories b text
   ↔ ∃ pat, patterns b !! cat = Some pat ∧ Pattern_search pat text = true)
  ∧ (patterns b !! cat = None → cat ∉ _match_categories b text).
Proof.
  split; [apply match_categories_spec|].
  intros Hnone (pat & Hpat & _)%match_categories_spec. congruence.
Qed.

Lemma pick_loop_contract (cats : list string) (hits : gset string) :
  (pick_loop cats hits ∈ hits
   ∧ ∃ higher lower,
       cats = higher ++ pick_loop cats hits :: lower
       ∧ ∀ cat, cat ∈ higher → cat ∉ hits)
  ∨ (pick_loop cats hits = "default" ∧ ∀ cat, cat ∈ cats → cat ∉ hits).
Proof.
  induction cats as [|c cats IH]; cbn [pick_loop].
  - right. split; [done|]. intros cat Hc. by apply elem_of_nil in Hc.
  - destruct (bool_decide (c ∈ hits)) eqn:Hc.
    + apply bool_decide_eq_true in Hc. left. split; [done|].
      exists [], cats. split; [done|]. intros cat H. by apply elem_of_nil in H.
    + apply bool_decide_eq_false in Hc.
      destruct IH as [(Hin & higher & lower & Heq & Hhigh)|[Hd Hnone]].
      * left. split; [done|]. exists (c :: higher), lower. split.
        -- cbn. by rewrite <-Heq.
        -- intros cat [->|?]%elem_of_cons; auto.
      * right. split; [done|]. intros cat [->|?]%elem_of_cons; auto.
Qed.

(** X19. For any priority list and any set of hits, [_pick_by_priority]
    returns the first entry of the list that is a hit, and [default]
    when no entry of the list is a hit; hits that are not in the list
    are passed over, so the result is a hit or [default]. *)
Theorem pick_by_priority_contract (b : GriefSupportBot) (hits : gset string) :
  let cat := _pick_by_priority b hits in
  (cat ∈ hits
   ∧ ∃ higher lower,
       priorities b = higher ++ cat :: lower
       ∧ ∀ c, c ∈ higher → c ∉ hits)
  ∨ (cat = "default" ∧ ∀ c, c ∈ priorities b → c ∉ hits).
Proof. apply pick_loop_contract. Qed.

(** X20. On the path through the reply bank the matched terms are the
    names of the categories whose pattern matches the text, each once,
    in ascending order, joined by commas. *)
Theorem matched_terms_lists_matches (config : BotConfig)
    (used : gmap string (gset nat)) (r : RandomState) (message : list N) :
  let stripped := strip message in
  stripped ≠ [] →
  Pattern_search initial_crisis_pattern stripped = false →
  _explicit_help_request stripped = false →
  ∃ resp w' terms,
    get_response (PyStr message) (world config used r) = (Return resp, w')
    ∧ matched_terms resp = String.concat "," terms
    ∧ StronglySorted String.le terms
    ∧ NoDup terms
    ∧ ∀ cat, cat ∈ terms ↔ matched stripped cat.
Proof.
  intros stripped Hne Hc Hh.
  destruct (reply_path config used r message Hne Hc Hh)
    as (idx & base & fu & used' & r1 & r' & _ & _ & _ & _ & Hrun).
  assert (Hspec : ∀ cat, cat ∈ _match_categories (bot config used) stripped
                         ↔ matched stripped cat)
    by (intros; apply hits_matched).
  fold stripped in Hrun.
  generalize dependent (_match_categories (bot config used) stripped).
  intros hits Hrun Hspec.
  eexists _, _, (merge_sort String.le (elements hits)).
  split; [exact Hrun|]. cbn [matched_terms]. clear Hrun.
  pose proof (merge_sort_Permutation String.le (elements hits)) as Hperm.
  split_and!.
  - destruct (decide (hits = ∅)) as [->|Hhits].
    + rewrite bool_decide_eq_false_2 by (intros H; by apply H).
      by rewrite elements_empty.
    + by rewrite (bool_decide_eq_true_2 _ Hhits).
  - apply StronglySorted_merge_sort; apply _.
  - rewrite Hperm. apply NoDup_elements.
  - intros cat. rewrite Hperm, elem_of_elements. apply Hspec.
Qed.

(** *** The follow-up, for any tables *)

(** X21. [_choose_followup] never raises and never writes to the
    object, for any tables: a category without a follow-up bank, or with
    an empty one, gives the empty string without a draw; otherwise the
    follow-up is an entry of the bank of the category, the first one in
    deterministic mode, where nothing is drawn either. *)
Theorem choose_followup_contract (w : World) (cat : string) :
  ∃ fu r',
    _choose_followup cat w
    = (Return fu, {| self := self w; random := r' |})
    ∧ (default [] (followups (self w) !! cat) = [] →
       fu = "" ∧ r' = random w)
    ∧ (∀ bank, followups (self w) !! cat = Some bank → bank ≠ [] →
               fu ∈ bank)
    ∧ (deterministic (cfg (self w)) = true →
       r' = random w
       ∧ fu = default "" (head (default [] (followups (self w) !! cat)))).
Proof.
  unfold _choose_followup. erewrite run_bind by reflexivity.
  destruct (followups (self w) !! cat) as [[|f bank]|] eqn:Hf.
  - exists "", (random w). destruct w; cbn. split_and!; try done.
    by intros bank [= <-].
  - destruct (pick_spec (f :: bank) w) as (fu & r' & Hrun & Hin & Hdet);
      [done|].
    exists fu, r'. split_and!; [exact Hrun|done| |].
    + by intros bank' [= <-] _.
    + intros Hd. destruct (Hdet Hd) as [[= <-] ->]. done.
  - exists "", (random w). destruct w; cbn. split_and!; done.
Qed.

(** *** Keywords as whole words in a message *)

Lemma at_boundary_context (prev prev' : option N) (s post : list N) :
  wordlike prev = wordlike prev' →
  wordlike (head post) = false →
  at_boundary prev' (s ++ post) = at_boundary prev s.
Proof.
  unfold wordlike, at_boundary. intros Hprev Hpost. rewrite <-Hprev.
  destruct s as [|x s]; cbn [app head]; [|done].
  by rewrite Hpost.
Qed.

(** What a pattern matches in a text, it matches in the text followed
    by more, when what follows does not begin with a word character
    and the characters before the two positions are of the same kind. *)
Lemma re_match_context (ic : bool) (r : regex) (post : list N) :
  wordlike (head post) = false →
  ∀ (prev prev' : option N) (s : list N)
    (k k' : option N → list N → bool),
    wordlike prev = wordlike prev' →
    (∀ p t, k p t = true → k' p (t ++ post) = true) →
    (∀ t, k prev t = true → k' prev' (t ++ post) = true) →
    re_match ic r prev s k = true →
    re_match ic r prev' (s ++ post) k' = true.
Proof.
  intros Hpost.
  induction r as [|a|a|r1 IH1 r2 IH2|r1 IH1 r2 IH2|r IH|];
    intros prev prev' s k k' Hprev Hk Hk0; cbn [re_match].
  - apply Hk0.
  - destruct s as [|x s]; [done|]. cbn [app].
    intros [Ha Hs]%andb_true_iff. rewrite Ha. cbn [andb]. by apply Hk.
  - clear Hk0. induction s as [|x s IHs]; [done|]. cbn [app match_repeat1].
    intros [Ha Hs]%andb_true_iff. rewrite Ha. cbn [andb].
    apply orb_true_iff in Hs as [Hs|Hs]; apply orb_true_iff.
    + left. by apply IHs.
    + right. by apply Hk.
  - apply (IH1 prev prev' s _ _ Hprev).
    + intros p t. apply (IH2 p p t k k' eq_refl Hk (Hk p)).
    + intros t. apply (IH2 prev prev' t k k' Hprev Hk Hk0).
  - intros [H|H]%orb_true_iff; apply orb_true_iff.
    + left. by apply (IH1 prev prev' s k k').
    + right. by apply (IH2 prev prev' s k k').
  - intros [H|H]%orb_true_iff; apply orb_true_iff.
    + left. by apply (IH prev prev' s k k').
    + right. by apply Hk0.
  - rewrite (at_boundary_context prev prev' s post Hprev Hpost).
    intros [Hb Hs]%andb_true_iff. rewrite Hb. cbn [andb]. by apply Hk0.
Qed.

Lemma search_from_context (ic : bool) (r : regex) (post : list N) :
  wordlike (head post) = false →
  ∀ (mid : list N) (prev prev' : option N),
    wordlike prev = wordlike prev' →
    search_from ic r prev mid = true →
    search_from ic r prev' (mid ++ post) = true.
Proof.
  intros Hpost. induction mid as [|x mid IH]; intros prev prev' Hprev.
  - cbn [search_from app]. rewrite orb_false_r. intros Hm.
    assert (Hm' : re_match ic r prev' ([] ++ post) (λ _ _, true) = true)
      by (by apply (re_match_context ic r post Hpost prev prev' []
                      (λ _ _, true))).
    cbn [app] in Hm'. destruct post; cbn [search_from]; by rewrite Hm'.
  - cbn [search_from app]. intros [Hm|Hm]%orb_true_iff; apply orb_true_iff.
    + left. by apply (re_match_context ic r post Hpost prev prev' (x :: mid)
                        (λ _ _, true)).
    + right. by apply (IH (Some x) (Some x)).
Qed.

Lemma search_from_skip (ic : bool) (r : regex) (rest : list N) :
  ∀ (pre : list N) (prev : option N),
    search_from ic r (from_option Some prev (last pre)) rest = true →
    search_from ic r prev (pre ++ rest) = true.
Proof.
  induction pre as [|x pre IH]; intros prev; [done|].
  rewrite last_cons. intros Hs. cbn [app search_from].
  apply orb_true_iff. right. apply IH.
  by destruct (last pre).
Qed.

(** A match in a text stays a match when the text is put between two
    others, as long as no word character touches it on either side. *)
Lemma re_search_context (ic : bool) (r : regex) (pre mid post : list N) :
  wordlike (last pre) = false →
  wordlike (head post) = false →
  re_search r mid ic = true →
  re_search r (pre ++ mid ++ post) ic = true.
Proof.
  unfold re_search. intros Hpre Hpost Hs. apply search_from_skip.
  apply (search_from_context ic r post Hpost mid None); [|exact Hs].
  destruct (last pre); cbn [from_option]; [by rewrite Hpre|done].
Qed.

Lemma wordlike_suffix (pre0 pre' : list N) :
  wordlike (last (pre0 ++ pre')) = false → wordlike (last pre') = false.
Proof. rewrite last_app. by destruct (last pre'). Qed.

Lemma wordlike_prefix (post' post0 : list N) :
  wordlike (head (post' ++ post0)) = false → wordlike (head post') = false.
Proof. by destruct post'. Qed.

(** A keyword written in any mix of ASCII capitals and small letters,
    with no word character next to it, survives stripping with such
    neighbours, and every case-blind pattern that matches the keyword
    by itself finds a match in the stripped message. *)
Lemma keyword_in_context (pre kw post : list N) (word : string) :
  ascii_tolower <$> kw = codes word →
  from_option Py_UNICODE_ISSPACE true (head (codes word)) = false →
  from_option Py_UNICODE_ISSPACE true (last (codes word)) = false →
  wordlike (last pre) = false →
  wordlike (head post) = false →
  strip (pre ++ kw ++ post) ≠ []
  ∧ ∀ r, re_search r (codes word) true = true →
         re_search r (strip (pre ++ kw ++ post)) true = true.
Proof.
  intros Hkw Hhead Hlast Hpre Hpost. rewrite <-Hkw in Hhead, Hlast.
  rewrite fmap_last in Hlast.
  destruct kw as [|x kw'] eqn:Ekw; [done|]. rewrite <-Ekw in *.
  assert (Hx : head kw = Some x) by by rewrite Ekw.
  destruct (last kw) as [y|] eqn:Hy; [|done].
  assert (Hxs : Py_UNICODE_ISSPACE x = false).
  { rewrite Ekw in Hhead. cbn in Hhead. by rewrite isspace_tolower in Hhead. }
  assert (Hys : Py_UNICODE_ISSPACE y = false).
  { cbn in Hlast. by rewrite isspace_tolower in Hlast. }
  destruct (strip_infix pre kw post x y Hx Hy Hxs Hys)
    as (pre0 & pre' & post' & post0 & Epre & Epost & Hstrip).
  rewrite Hstrip. split.
  - rewrite Ekw. by destruct pre'.
  - intros r Hr. apply re_search_context.
    + apply (wordlike_suffix pre0). by rewrite <-Epre.
    + apply (wordlike_prefix _ post0). by rewrite <-Epost.
    + by rewrite <-re_search_tolower, Hkw.
Qed.

Lemma category_keywords_match :
  Forall (λ kw : string * string,
            from_option (λ pat, re_search (pattern pat) (codes kw.2) true)
              false (initial_patterns !! kw.1) = true
            ∧ from_option Py_UNICODE_ISSPACE true (head (codes kw.2)) = false
            ∧ from_option Py_UNICODE_ISSPACE true (last (codes kw.2)) = false)
    category_keywords.
Proof.
  apply Forall_fold_right. vm_compute. repeat split.
Qed.

Lemma advice_keywords_match :
  Forall (λ word : string,
            re_search help_request_re (codes word) true = true
            ∧ from_option Py_UNICODE_ISSPACE true (head (codes word)) = false
            ∧ from_option Py_UNICODE_ISSPACE true (last (codes word)) = false)
    advice_keywords.
Proof.
  apply Forall_fold_right. vm_compute. repeat split.
Qed.

(** X22. A keyword of a category, written in any mix of ASCII capitals
    and small letters and with no word character next to it, makes the
    pattern of its category match wherever it stands in the message.
    The answer is never the default one: it is the crisis answer, or
    the self-care suggestion of a request for advice, or an answer of a
    matched category that stands no later in the priority list than the
    category of the keyword. *)
Theorem category_keyword_detected (config : BotConfig)
    (used : gmap string (gset nat)) (r : RandomState)
    (pre kw post : list N) (cat word : string) :
  (cat, word) ∈ category_keywords →
  ascii_tolower <$> kw = codes word →
  wordlike (last pre) = false →
  wordlike (head post) = false →
  let text := strip (pre ++ kw ++ post) in
  matched text cat
  ∧ ∃ resp w',
      get_response (PyStr (pre ++ kw ++ post)) (world config used r)
      = (Return resp, w')
      ∧ category resp ≠ "default"
      ∧ (category resp = "crisis"
         ∨ matched_terms resp = "self_care(help)"
         ∨ (matched text (category resp)
            ∧ ∃ higher lower,
                initial_priorities = higher ++ category resp :: lower
                ∧ cat ∉ higher)).
Proof.
  intros Hin Hkw Hpre Hpost text.
  pose proof category_keywords_match as Hall. rewrite Forall_forall in Hall.
  destruct (Hall _ Hin) as (Hword & Hhead & Hlast). clear Hall Hin.
  cbn [fst snd] in Hword, Hhead, Hlast.
  destruct (keyword_in_context pre kw post word Hkw Hhead Hlast Hpre Hpost)
    as [Hne Hfound].
  fold text in Hne, Hfound.
  assert (Hm : matched text cat).
  { destruct (initial_patterns !! cat) as [pat|] eqn:Hpat; [|done].
    exists pat. split; [exact Hpat|].
    unfold Pattern_search.
    rewrite (initial_patterns_ignorecase _ _ Hpat).
    apply Hfound. exact Hword. }
  clear Hword Hhead Hlast Hfound Hkw Hpre Hpost.
  split; [exact Hm|].
  destruct (Pattern_search initial_crisis_pattern text) eqn:Hc.
  { destruct (crisis_path config used r _ Hne Hc)
      as (idx & reply & used' & r' & _ & Hrun).
    eexists _, _. split; [exact Hrun|]. cbn [category].
    split; [discriminate|by left]. }
  destruct (_explicit_help_request text) eqn:Hh.
  { destruct (advice_path (world config used r) _ Hne Hc Hh)
      as (recs & suggestion & r' & _ & _ & _ & _ & Hrun).
    eexists _, _. split; [exact Hrun|]. cbn [category matched_terms].
    split; [discriminate|right; by left]. }
  destruct (reply_path config used r _ Hne Hc Hh)
    as (idx & base & fu & used' & r1 & r' & _ & _ & _ & _ & Hrun).
  eexists _, _. split; [exact Hrun|]. cbn [category]. clear Hrun.
  fold text. unfold resolved, _pick_by_priority.
  cbn [priorities bot set_used_indexes new_bot].
  assert (Hspec : ∀ c, c ∈ _match_categories (bot config used) text
                       ↔ matched text c)
    by (intros; apply hits_matched).
  fold (bot config used).
  generalize dependent (_match_categories (bot config used) text).
  intros hits Hspec.
  assert (Hcat : cat ∈ hits) by by apply Hspec.
  rewrite bool_decide_eq_true_2
    by (intros ->; by apply not_elem_of_empty in Hcat).
  destruct (pick_loop_first initial_priorities hits)
    as (higher & lower & Heq & Hpick & Hfirst).
  { exists cat. split; [by eapply matched_prioritised|exact Hcat]. }
  apply Hspec in Hpick.
  split.
  - intros Hd. rewrite Hd in Hpick. destruct Hpick as (pat & Hpat & _).
    by rewrite default_not_pattern in Hpat.
  - right; right. split; [exact Hpick|].
    exists higher, lower. split; [exact Heq|].
    intros Hhigher. by apply (Hfirst cat Hhigher).
Qed.

(** X23. A way of asking for advice that the request pattern spells
    out, written in any mix of ASCII capitals and small letters and with
    no word character next to it, turns every message without crisis
    language into a request for advice, wherever it stands: the answer
    is a self-care suggestion with matched terms [self_care(help)],
    whatever categories the message matches, and the object is left as
    it was. *)
Theorem advice_keyword_detected (config : BotConfig)
    (used : gmap string (gset nat)) (r : RandomState)
    (pre kw post : list N) (word : string) :
  word ∈ advice_keywords →
  ascii_tolower <$> kw = codes word →
  wordlike (last pre) = false →
  wordlike (head post) = false →
  Pattern_search initial_crisis_pattern (strip (pre ++ kw ++ post)) = false →
  ∃ resp r',
    get_response (PyStr (pre ++ kw ++ post)) (world config used r)
    = (Return resp, world config used r')
    ∧ category resp = "self_care"
    ∧ matched_terms resp = "self_care(help)".
Proof.
  intros Hin Hkw Hpre Hpost Hc.
  pose proof advice_keywords_match as Hall. rewrite Forall_forall in Hall.
  destruct (Hall _ Hin) as (Hword & Hhead & Hlast). clear Hall Hin.
  destruct (keyword_in_context pre kw post word Hkw Hhead Hlast Hpre Hpost)
    as [Hne Hfound].
  assert (Hh : _explicit_help_request (strip (pre ++ kw ++ post)) = true)
    by (apply Hfound; exact Hword).
  destruct (advice_path (world config used r) _ Hne Hc Hh)
    as (recs & suggestion & r' & _ & _ & _ & _ & Hrun).
  eexists _, r'. split; [exact Hrun|]. done.
Qed.

End Runtime.

(** ** Evaluations

    The theorems at concrete messages, on the runtime for evaluation. *)

Abbreviation respond :=
  (get_response plain_isalnum plain_tolower plain_lower nat counting_randbelow).
Abbreviation search :=
  (Pattern_search plain_isalnum plain_tolower).
Abbreviation asks_help :=
  (_explicit_help_request plain_isalnum plain_tolower).

Lemma crisis_override_witness :
  let message := codes "I am sad, any advice? I want to KILL myself" in
  strip message ≠ []
  ∧ search initial_crisis_pattern (strip message) = true
  ∧ ∃ reply w',
      initial_responses !! "crisis" = Some [reply]
      ∧ respond (PyStr message) (world nat BotConfig_default ∅ 7%nat)
        = (Return {| text := reply; category := "crisis";
                     matched_terms := "crisis" |}, w').
Proof.
  intros message.
  assert (H1 : strip message ≠ []) by (vm_compute; discriminate).
  assert (H2 : search initial_crisis_pattern (strip message) = true)
    by (vm_compute; reflexivity).
  split_and!; [exact H1|exact H2|].
  exact (crisis_override plain_isalnum plain_tolower plain_lower nat
           counting_randbelow BotConfig_default ∅ 7%nat message H1 H2).
Defined.

Lemma empty_message_default_witness :
  let message := [32; 9; 10; 0x3000]%N in
  let w := world nat test_config ∅ 0%nat in
  forallb Py_UNICODE_ISSPACE message = true
  ∧ respond (PyStr message) w
    = (Return {| text := "I’m here. Say anything that feels manageable to share.";
                 category := "default"; matched_terms := "" |}, w).
Proof.
  intros message w.
  assert (H1 : forallb Py_UNICODE_ISSPACE message = true)
    by (vm_compute; reflexivity).
  split; [exact H1|].
  exact (empty_message_default plain_isalnum plain_tolower plain_lower nat
           counting_randbelow w message H1).
Defined.

Lemma falsy_message_default_witness :
  let w := world nat test_config ∅ 0%nat in
  truthy PyNone = false
  ∧ respond PyNone w = respond (PyStr []) w
  ∧ respond PyNone w
    = (Return {| text := "I’m here. Say anything that feels manageable to share.";
                 category := "default"; matched_terms := "" |}, w).
Proof.
  intros w.
  assert (H1 : truthy PyNone = false) by reflexivity.
  split; [exact H1|].
  exact (falsy_message_default plain_isalnum plain_tolower plain_lower nat
           counting_randbelow w PyNone H1).
Defined.

Lemma priority_resolution_witness :
  let text := strip (codes "I feel sad about our anniversary") in
  text ≠ []
  ∧ search initial_crisis_pattern text = false
  ∧ asks_help text = false
  ∧ matched plain_isalnum plain_tolower text "feeling_bad"
  ∧ matched plain_isalnum plain_tolower text "anniversary"
  ∧ ∃ resp w',
      respond (PyStr (codes "I feel sad about our anniversary"))
        (world nat test_config ∅ 0%nat)
      = (Return resp, w')
      ∧ category resp = "anniversary".
Proof.
  intros text.
  assert (H1 : text ≠ []) by (vm_compute; discriminate).
  assert (H2 : search initial_crisis_pattern text = false)
    by (vm_compute; reflexivity).
  assert (H3 : asks_help text = false) by (vm_compute; reflexivity).
  assert (H4 : matched plain_isalnum plain_tolower text "feeling_bad")
    by (apply matched_lookup; vm_compute; reflexivity).
  assert (H5 : matched plain_isalnum plain_tolower text "anniversary")
    by (apply matched_lookup; vm_compute; reflexivity).
  split_and!; [exact H1|exact H2|exact H3|exact H4|exact H5|].
  destruct (priority_resolution plain_isalnum plain_tolower plain_lower nat
              counting_randbelow test_config ∅ 0%nat
              (codes "I feel sad about our anniversary") H1 H2 H3)
    as (resp & w' & Hrun & _ & _ & Hboth).
  exists resp, w'. split; [exact Hrun|exact (Hboth H4 H5)].
Defined.

Lemma advice_override_witness :
  let message := codes "any tip to help right now?" in
  let text := strip message in
  let w := world nat test_config ∅ 0%nat in
  text ≠ []
  ∧ asks_help text = true
  ∧ search initial_crisis_pattern text = false
  ∧ ∃ suggestion r',
      _get_self_care_suggestion plain_isalnum plain_tolower plain_lower nat
        counting_randbelow text w
      = (Return suggestion, world nat test_config ∅ r')
      ∧ respond (PyStr message) w
        = (Return {| text := suggestion; category := "self_care";
                     matched_terms := "self_care(help)" |},
           world nat test_config ∅ r').
Proof.
  intros message text w.
  assert (H1 : text ≠ []) by (vm_compute; discriminate).
  assert (H2 : asks_help text = true) by (vm_compute; reflexivity).
  assert (H3 : search initial_crisis_pattern text = false)
    by (vm_compute; reflexivity).
  split_and!; [exact H1|exact H2|exact H3|].
  exact (proj1 (advice_override plain_isalnum plain_tolower plain_lower nat
                  counting_randbelow test_config ∅ 0%nat message H1 H2) H3).
Defined.

Lemma deterministic_cycle_witness :
  let w := world nat test_config ∅ 0%nat in
  let dflt := default [] (initial_responses !! "default") in
  let bank := default dflt (initial_responses !! "greeting") in
  deterministic (cfg (self nat w)) = true
  ∧ responses (self nat w) !! "default" = Some dflt
  ∧ bank ≠ []
  ∧ consumed (self nat w) "greeting" = ∅
  ∧ ∃ replies w',
      repeat_call nat (_choose nat counting_randbelow "greeting") 4 w
      = (Return replies, w')
      ∧ (∀ j, (j < 4)%nat → replies !! j = bank !! (j mod length bank)%nat)
      ∧ consumed (self nat w') "greeting" = first_indices 1.
Proof.
  intros w dflt bank.
  assert (H1 : deterministic (cfg (self nat w)) = true) by reflexivity.
  assert (H2 : responses (self nat w) !! "default" = Some dflt)
    by (vm_compute; reflexivity).
  assert (H3 : bank ≠ []) by (vm_compute; discriminate).
  assert (H4 : consumed (self nat w) "greeting" = ∅) by reflexivity.
  split_and!; [exact H1|exact H2|exact H3|exact H4|].
  assert (H5 : (0 ≤ length bank)%nat) by lia.
  destruct (deterministic_cycle plain_isalnum plain_tolower plain_lower nat
              counting_randbelow w "greeting" dflt 0 4 0%nat H1 H2 H3 H5 H4)
    as [(replies & w' & Hrun & _ & Hnth & _ & _ & _ & Hcons) _].
  exists replies, w'. split_and!; [exact Hrun|exact Hnth|].
  exact (Hcons ltac:(lia)).
Defined.

Lemma followup_selection_witness :
  let message := codes "I am sad" in
  let stripped := strip message in
  stripped ≠ []
  ∧ search initial_crisis_pattern stripped = false
  ∧ asks_help stripped = false
  ∧ ∃ resp base used' r1 r',
      respond (PyStr message) (world nat test_config ∅ 0%nat)
      = (Return resp, world nat test_config used' r')
      ∧ _choose nat counting_randbelow (category resp)
          (world nat test_config ∅ 0%nat)
        = (Return base, world nat test_config used' r1)
      ∧ match initial_followups !! category resp with
        | None => text resp = base
        | Some bank =>
            ∃ fu, fu ∈ bank
                  ∧ text resp = base +:+ " " +:+ fu
                  ∧ (deterministic test_config = true → head bank = Some fu)
        end.
Proof.
  intros message stripped.
  assert (H1 : stripped ≠ []) by (vm_compute; discriminate).
  assert (H2 : search initial_crisis_pattern stripped = false)
    by (vm_compute; reflexivity).
  assert (H3 : asks_help stripped = false) by (vm_compute; reflexivity).
  split_and!; [exact H1|exact H2|exact H3|].
  exact (followup_selection plain_isalnum plain_tolower plain_lower nat
           counting_randbelow test_config ∅ 0%nat message H1 H2 H3).
Defined.

(** C6 as the specification words it does not hold.  Two answers in a
    row to the same sad message, in deterministic mode and from a fresh
    object, end in the same follow-up, although the category has a
    second follow-up that was not shown yet. *)
Lemma followup_repeats :
  ∃ b0 b1 b2 fu0 fu1,
    initial_responses !! "feeling_bad" = Some [b0; b1; b2]
    ∧ initial_followups !! "feeling_bad" = Some [fu0; fu1]
    ∧ fu0 ≠ fu1
    ∧ (repeat_call nat (respond (PyStr (codes "I am sad"))) 2
         (world nat test_config ∅ 0%nat)).1
      = Return [{| text := b0 +:+ " " +:+ fu0; category := "feeling_bad";
                   matched_terms := "feeling_bad" |};
                {| text := b1 +:+ " " +:+ fu0; category := "feeling_bad";
                   matched_terms := "feeling_bad" |}]
    ∧ ¬ NoDup [fu0; fu0].
Proof.
  pose (bank := default [] (initial_responses !! "feeling_bad")).
  pose (fus := default [] (initial_followups !! "feeling_bad")).
  exists (default "" (bank !! 0%nat)), (default "" (bank !! 1%nat)),
    (default "" (bank !! 2%nat)), (default "" (fus !! 0%nat)),
    (default "" (fus !! 1%nat)).
  subst bank fus.
  split; [vm_compute; reflexivity|].
  split; [vm_compute; reflexivity|].
  split; [vm_compute; discriminate|].
  split; [vm_compute; reflexivity|].
  intros Hnd. apply NoDup_cons in Hnd as [Hno _]. apply Hno. by left.
Qed.

(** *** The further properties at concrete inputs *)

Abbreviation rest_chat :=
  (api_chat plain_isalnum plain_tolower plain_lower nat counting_randbelow).
Abbreviation socket_message :=
  (handle_user_message plain_isalnum plain_tolower plain_lower nat
     counting_randbelow).

Lemma choose_missing_default_witness :
  let b := {| cfg := test_config;
              responses := {[ "greeting" := ["Hello."] ]};
              followups := ∅;
              patterns := ∅;
              crisis_pattern := initial_crisis_pattern;
              priorities := ["greeting"];
              _used_indexes := ∅ |} in
  let w := {| self := b; random := 0%nat |} in
  responses (self nat w) !! "default" = None
  ∧ _choose nat counting_randbelow "greeting" w
    = (Raise (KeyError "default"), w).
Proof.
  intros b w.
  assert (H1 : responses (self nat w) !! "default" = None)
    by (vm_compute; reflexivity).
  split; [exact H1|].
  exact (choose_missing_default nat counting_randbelow w "greeting" H1).
Defined.

Lemma choose_empty_bank_witness :
  let b := {| cfg := grief_bot_config;
              responses := <["greeting" := []]> {[ "default" := ["I am here."] ]};
              followups := ∅;
              patterns := ∅;
              crisis_pattern := initial_crisis_pattern;
              priorities := ["greeting"];
              _used_indexes := ∅ |} in
  let w := {| self := b; random := 0%nat |} in
  responses (self nat w) !! "default" = Some ["I am here."]
  ∧ default ["I am here."] (responses (self nat w) !! "greeting") = []
  ∧ _choose nat counting_randbelow "greeting" w
    = (Raise IndexError,
       with_used nat w (<["greeting" := ∅]> (_used_indexes (self nat w)))).
Proof.
  intros b w.
  assert (H1 : responses (self nat w) !! "default" = Some ["I am here."])
    by (vm_compute; reflexivity).
  assert (H2 : default ["I am here."] (responses (self nat w) !! "greeting")
               = [])
    by (vm_compute; reflexivity).
  split_and!; [exact H1|exact H2|].
  exact (choose_empty_bank nat counting_randbelow w "greeting"
           ["I am here."] H1 H2).
Defined.

Lemma choose_no_repeat_witness :
  let w := world nat grief_bot_config ∅ 5%nat in
  let dflt := default [] (initial_responses !! "default") in
  let bank := default dflt (initial_responses !! "greeting") in
  responses (self nat w) !! "default" = Some dflt
  ∧ (2 ≤ length (unused (length bank) (consumed (self nat w) "greeting")))%nat
  ∧ ∃ idxs replies w',
      repeat_call nat (_choose nat counting_randbelow "greeting") 2 w
      = (Return replies, w')
      ∧ NoDup idxs
      ∧ Forall2 (λ i reply, bank !! i = Some reply) idxs replies
      ∧ consumed (self nat w') "greeting" = list_to_set idxs ∪ ∅.
Proof.
  intros w dflt bank.
  assert (H1 : responses (self nat w) !! "default" = Some dflt)
    by (vm_compute; reflexivity).
  assert (H2 : (2 ≤ length (unused (length bank)
                              (consumed (self nat w) "greeting")))%nat)
    by (vm_compute; lia).
  split_and!; [exact H1|exact H2|].
  destruct (choose_no_repeat nat counting_randbelow "greeting" dflt 2 w H1 H2)
    as (idxs & replies & w' & Hrun & _ & Hnd & _ & Hbank & Hcons & _).
  exists idxs, replies, w'.
  split_and!; [exact Hrun|exact Hnd|exact Hbank|exact Hcons].
Defined.

Lemma deterministic_ignores_generator_witness :
  let b := bot test_config ∅ in
  let message := PyStr (codes "I am sad") in
  deterministic (cfg b) = true
  ∧ ∃ o b',
      respond message {| self := b; random := 0%nat |}
      = (o, {| self := b'; random := 0%nat |})
      ∧ respond message {| self := b; random := 9%nat |}
        = (o, {| self := b'; random := 9%nat |}).
Proof.
  intros b message.
  assert (H1 : deterministic (cfg b) = true) by reflexivity.
  split; [exact H1|].
  exact (deterministic_ignores_generator plain_isalnum plain_tolower
           plain_lower nat counting_randbelow b message 0%nat 9%nat H1).
Defined.


Lemma api_chat_rejects_blank_witness :
  let fields := [("message", JStr (codes "   "))] in
  let w := world nat grief_bot_config ∅ 0%nat in
  blank (default JNull (fields_lookup fields "message")) = true
  ∧ rest_chat (JObj fields) w
    = (Return (JsonError "Empty message", 400%nat), w).
Proof.
  intros fields w.
  assert (H1 : blank (default JNull (fields_lookup fields "message")) = true)
    by (vm_compute; reflexivity).
  split; [exact H1|].
  exact (api_chat_rejects_blank plain_isalnum plain_tolower plain_lower nat
           counting_randbelow w (JObj fields)
           (or_intror (ex_intro _ fields (conj eq_refl H1)))).
Defined.

Lemma api_chat_answers_witness :
  let s := codes " hello there " in
  let fields := [("user", JStr (codes "sam")); ("message", JStr s)] in
  let w := world nat grief_bot_config ∅ 3%nat in
  fields_lookup fields "message" = Some (JStr s)
  ∧ strip s ≠ []
  ∧ ∃ resp used' r',
      respond (PyStr s) w
      = (Return resp, world nat grief_bot_config used' r')
      ∧ rest_chat (JObj fields) w
        = (Return (JsonAnswer resp, 200%nat),
           world nat grief_bot_config used' r').
Proof.
  intros s fields w.
  assert (H1 : fields_lookup fields "message" = Some (JStr s))
    by (vm_compute; reflexivity).
  assert (H2 : strip s ≠ []) by (vm_compute; discriminate).
  split_and!; [exact H1|exact H2|].
  exact (api_chat_answers plain_isalnum plain_tolower plain_lower nat
           counting_randbelow ∅ 3%nat fields s H1 H2).
Defined.

Lemma api_chat_raises_witness :
  let fields := [("message", JInt 5)] in
  let w := world nat grief_bot_config ∅ 0%nat in
  fields_lookup fields "message" = Some (JInt 5)
  ∧ json_truthy (JInt 5) = true
  ∧ (∀ s, JInt 5 ≠ JStr s)
  ∧ rest_chat (JObj fields) w = (Raise AttributeError, w).
Proof.
  intros fields w.
  assert (H1 : fields_lookup fields "message" = Some (JInt 5))
    by (vm_compute; reflexivity).
  assert (H2 : json_truthy (JInt 5) = true) by reflexivity.
  assert (H3 : ∀ s, JInt 5 ≠ JStr s) by (intros s; discriminate).
  split_and!; [exact H1|exact H2|exact H3|].
  exact (api_chat_raises plain_isalnum plain_tolower plain_lower nat
           counting_randbelow w (JObj fields)
           (or_intror
              (ex_intro _ fields
                 (ex_intro _ (JInt 5)
                    (conj eq_refl (conj H1 (conj H2 H3))))))).
Defined.

Lemma handler_silent_witness :
  let s := codes "  " in
  let fields := [("message", JStr s)] in
  let w := world nat grief_bot_config ∅ 0%nat in
  fields_lookup fields "message" = Some (JStr s)
  ∧ strip s = []
  ∧ socket_message true (JObj fields) w = (Return [], w).
Proof.
  intros s fields w.
  assert (H1 : fields_lookup fields "message" = Some (JStr s))
    by (vm_compute; reflexivity).
  assert (H2 : strip s = []) by (vm_compute; reflexivity).
  split_and!; [exact H1|exact H2|].
  exact (handler_silent plain_isalnum plain_tolower plain_lower nat
           counting_randbelow w true (JObj fields)
           (or_intror
              (or_intror
                 (ex_intro _ fields
                    (conj eq_refl
                       (or_intror (ex_intro _ s (conj H1 H2)))))))).
Defined.

Lemma handler_answers_witness :
  let s := codes "I miss her so much" in
  let fields := [("message", JStr s)] in
  let w := world nat grief_bot_config ∅ 3%nat in
  fields_lookup fields "message" = Some (JStr s)
  ∧ strip s ≠ []
  ∧ ∃ resp used' r',
      respond (PyStr s) w
      = (Return resp, world nat grief_bot_config used' r')
      ∧ socket_message true (JObj fields) w
        = (Return [{| event := "bot_message";
                      emitted_user := "Grief Support Bot";
                      emitted_message := text resp;
                      emitted_category := category resp |}],
           world nat grief_bot_config used' r').
Proof.
  intros s fields w.
  assert (H1 : fields_lookup fields "message" = Some (JStr s))
    by (vm_compute; reflexivity).
  assert (H2 : strip s ≠ []) by (vm_compute; discriminate).
  split_and!; [exact H1|exact H2|].
  exact (handler_answers plain_isalnum plain_tolower plain_lower nat
           counting_randbelow ∅ 3%nat fields s H1 H2).
Defined.

Lemma handlers_differ_on_null_witness :
  let fields := [("message", JNull)] in
  let w := world nat grief_bot_config ∅ 0%nat in
  fields_lookup fields "message" = Some JNull
  ∧ json_truthy JNull = false
  ∧ (∀ s, JNull ≠ JStr s)
  ∧ socket_message true (JObj fields) w = (Raise AttributeError, w)
  ∧ rest_chat (JObj fields) w
    = (Return (JsonError "Empty message", 400%nat), w).
Proof.
  intros fields w.
  assert (H1 : fields_lookup fields "message" = Some JNull)
    by (vm_compute; reflexivity).
  assert (H2 : json_truthy JNull = false) by reflexivity.
  assert (H3 : ∀ s, JNull ≠ JStr s) by (intros s; discriminate).
  split_and!; [exact H1|exact H2|exact H3|..];
    apply (handlers_differ_on_null plain_isalnum plain_tolower plain_lower
             nat counting_randbelow w fields JNull H1 H2 H3).
Defined.

Lemma letter_case_ignored_witness :
  let m1 := codes "I Am SAD today" in
  let m2 := codes "i am sad today" in
  let w := world nat grief_bot_config ∅ 2%nat in
  Forall (λ c, (c < 128)%N) m1
  ∧ Forall (λ c, (c < 128)%N) m2
  ∧ ascii_tolower <$> m1 = ascii_tolower <$> m2
  ∧ respond (PyStr m1) w = respond (PyStr m2) w.
Proof.
  intros m1 m2 w.
  assert (H1 : Forall (λ c, (c < 128)%N) m1)
    by (apply (bool_decide_unpack _); vm_compute; exact I).
  assert (H2 : Forall (λ c, (c < 128)%N) m2)
    by (apply (bool_decide_unpack _); vm_compute; exact I).
  assert (H3 : ascii_tolower <$> m1 = ascii_tolower <$> m2)
    by (vm_compute; reflexivity).
  split_and!; [exact H1|exact H2|exact H3|].
  exact (letter_case_ignored plain_isalnum plain_tolower plain_lower nat
           counting_randbelow grief_bot_config ∅ 2%nat m1 m2 H1 H2 H3).
Defined.

Lemma crisis_phrase_detected_witness :
  let pre := codes "I am fine.  Any advice?  Some days I " in
  let kw := codes "Don't Want To LIVE" in
  let post := codes "anymore" in
  "don't want to live" ∈ crisis_phrases
  ∧ ascii_tolower <$> kw = codes "don't want to live"
  ∧ ∃ resp w',
      respond (PyStr (pre ++ kw ++ post)) (world nat grief_bot_config ∅ 4%nat)
      = (Return resp, w')
      ∧ category resp = "crisis"
      ∧ matched_terms resp = "crisis".
Proof.
  intros pre kw post.
  assert (H1 : "don't want to live" ∈ crisis_phrases)
    by (apply (bool_decide_unpack _); vm_compute; exact I).
  assert (H2 : ascii_tolower <$> kw = codes "don't want to live")
    by (vm_compute; reflexivity).
  split_and!; [exact H1|exact H2|].
  exact (crisis_phrase_detected plain_isalnum plain_tolower plain_lower nat
           counting_randbelow grief_bot_config ∅ 4%nat pre kw post
           "don't want to live" H1 H2).
Defined.

Lemma matched_terms_lists_matches_witness :
  let message := codes "  I feel sad about our anniversary " in
  let stripped := strip message in
  stripped ≠ []
  ∧ search initial_crisis_pattern stripped = false
  ∧ asks_help stripped = false
  ∧ ∃ resp w' terms,
      respond (PyStr message) (world nat test_config ∅ 0%nat)
      = (Return resp, w')
      ∧ matched_terms resp = String.concat "," terms
      ∧ StronglySorted String.le terms
      ∧ NoDup terms
      ∧ ∀ cat, cat ∈ terms
               ↔ matched plain_isalnum plain_tolower stripped cat.
Proof.
  intros message stripped.
  assert (H1 : stripped ≠ []) by (vm_compute; discriminate).
  assert (H2 : search initial_crisis_pattern stripped = false)
    by (vm_compute; reflexivity).
  assert (H3 : asks_help stripped = false) by (vm_compute; reflexivity).
  split_and!; [exact H1|exact H2|exact H3|].
  exact (matched_terms_lists_matches plain_isalnum plain_tolower plain_lower
           nat counting_randbelow test_config ∅ 0%nat message H1 H2 H3).
Defined.

Lemma category_keyword_detected_witness :
  let pre := codes "Tomorrow is her " in
  let kw := codes "BirthDay" in
  let post := codes ", and I feel sad." in
  let text := strip (pre ++ kw ++ post) in
  ("anniversary", "birthday") ∈ category_keywords
  ∧ ascii_tolower <$> kw = codes "birthday"
  ∧ wordlike plain_isalnum (last pre) = false
  ∧ wordlike plain_isalnum (head post) = false
  ∧ matched plain_isalnum plain_tolower text "anniversary"
  ∧ ∃ resp w',
      respond (PyStr (pre ++ kw ++ post)) (world nat grief_bot_config ∅ 1%nat)
      = (Return resp, w')
      ∧ category resp ≠ "default"
      ∧ (category resp = "crisis"
         ∨ matched_terms resp = "self_care(help)"
         ∨ (matched plain_isalnum plain_tolower text (category resp)
            ∧ ∃ higher lower,
                initial_priorities = higher ++ category resp :: lower
                ∧ "anniversary" ∉ higher)).
Proof.
  intros pre kw post text.
  assert (H1 : ("anniversary", "birthday") ∈ category_keywords)
    by (apply (bool_decide_unpack _); vm_compute; exact I).
  assert (H2 : ascii_tolower <$> kw = codes "birthday")
    by (vm_compute; reflexivity).
  assert (H3 : wordlike plain_isalnum (last pre) = false)
    by (vm_compute; reflexivity).
  assert (H4 : wordlike plain_isalnum (head post) = false)
    by (vm_compute; reflexivity).
  split_and!; [exact H1|exact H2|exact H3|exact H4|..];
    apply (category_keyword_detected plain_isalnum plain_tolower plain_lower
             nat counting_randbelow grief_bot_config ∅ 1%nat pre kw post
             "anniversary" "birthday" H1 H2 H3 H4).
Defined.

Lemma advice_keyword_detected_witness :
  let pre := codes "I am so tired.  Any " in
  let kw := codes "Advice" in
  let post := codes "?" in
  let w := world nat grief_bot_config ∅ 1%nat in
  "advice" ∈ advice_keywords
  ∧ ascii_tolower <$> kw = codes "advice"
  ∧ wordlike plain_isalnum (last pre) = false
  ∧ wordlike plain_isalnum (head post) = false
  ∧ search initial_crisis_pattern (strip (pre ++ kw ++ post)) = false
  ∧ ∃ resp r',
      respond (PyStr (pre ++ kw ++ post)) w
      = (Return resp, world nat grief_bot_config ∅ r')
      ∧ category resp = "self_care"
      ∧ matched_terms resp = "self_care(help)".
Proof.
  intros pre kw post w.
  assert (H1 : "advice" ∈ advice_keywords)
    by (apply (bool_decide_unpack _); vm_compute; exact I).
  assert (H2 : ascii_tolower <$> kw = codes "advice")
    by (vm_compute; reflexivity).
  assert (H3 : wordlike plain_isalnum (last pre) = false)
    by (vm_compute; reflexivity).
  assert (H4 : wordlike plain_isalnum (head post) = false)
    by (vm_compute; reflexivity).
  assert (H5 : search initial_crisis_pattern (strip (pre ++ kw ++ post))
               = false)
    by (vm_compute; reflexivity).
  split_and!; [exact H1|exact H2|exact H3|exact H4|exact H5|].
  exact (advice_keyword_detected plain_isalnum plain_tolower plain_lower nat
           counting_randbelow grief_bot_config ∅ 1%nat pre kw post "advice"
           H1 H2 H3 H4 H5).
Defined.
